(** * MovieNow business-intelligence visualizer: a shallow embedding

    The development follows [visualizations.py].  The script builds five
    small in-memory tables ([MovieNowVisualizer.setup_sample_data]), derives a
    handful of descriptive statistics from them (min-max normalisation,
    descending ranks, a degree-1 trend line, element-wise ratios) and hands
    the resulting series to the charting libraries, which write four PNG
    figures and one HTML dashboard.

    Modelling conventions.
    - A pandas [int64] column is a [list Z]; a [float64] column is a
      [list Q].  Finite doubles are rationals, and the arithmetic on them is
      taken exact: the rounding of IEEE-754 operations is not modelled.  The
      result of a true division is a [float64] value, which besides the
      finite rationals has the two infinities and NaN, because pandas
      divides by zero silently.
    - NumPy's global random generator is a parameter of the development: its
      state type, the reseeding function and the standard-normal sampler are
      section variables.
    - The process state (generator state, directories, files, console) is
      threaded explicitly through a small state-and-exception monad.
    - A figure is the list of the charting calls made on it, with the data
      that each call receives.  Purely cosmetic keyword arguments (colours,
      marker sizes, fonts, rotation, transparency, DPI) are left out. *)

From Stdlib Require Import ZArith QArith Qminmax List String Ascii Lia Bool.
From Stdlib Require Import Permutation SetoidList SetoidPermutation.
From Stdlib Require Import DecimalString Field Lqa.
From stdpp Require Import base gmap strings.
Import ListNotations.

#[local] Set Warnings "-clear-no-such-hyp".

Local Open Scope string_scope.
Local Open Scope list_scope.
Local Open Scope Z_scope.

(** ** Numbers *)

(** A [float64] cell as left by a pandas division. *)
Inductive float64 : Type :=
| Finite (q : Q)
| PosInf
| NegInf
| NaN.

Definition Qltb (a b : Q) : bool := negb (Qle_bool b a).

(** [a / b] on float64 operands that are finite: NumPy raises nothing, a
    zero divisor gives NaN for [0/0] and a signed infinity otherwise. *)
Definition truediv (a b : Q) : float64 :=
  if Qeq_bool b 0 then
    if Qeq_bool a 0 then NaN
    else if Qltb a 0 then NegInf else PosInf
  else Finite (a / b).

(** [ndarray.astype(int)] on a finite double: the C cast, which truncates
    towards zero. *)
Definition astype_int (q : Q) : Z := Z.quot (Qnum q) (Z.pos (Qden q)).

(** An [int64] value read as a double. *)
Definition of_int (z : Z) : Q := inject_Z z.

Definition Qsum (l : list Q) : Q := fold_right Qplus 0%Q l.

(** ** Dates and [pd.date_range(start, end, freq='M')] *)

Record date : Type := mkdate { year : Z; month : Z; day : Z }.

Definition is_leap (y : Z) : bool :=
  (y mod 4 =? 0) && (negb (y mod 100 =? 0) || (y mod 400 =? 0)).

Definition days_in_month (y m : Z) : Z :=
  if m =? 2 then (if is_leap y then 29 else 28)
  else if (m =? 4) || (m =? 6) || (m =? 9) || (m =? 11) then 30
  else 31.

Definition month_end (y m : Z) : date :=
  {| year := y; month := m; day := days_in_month y m |}.

Definition date_leb (a b : date) : bool :=
  (year a <? year b)
  || ((year a =? year b)
      && ((month a <? month b)
          || ((month a =? month b) && (day a <=? day b)))).

(** The month ends from month [m] of year [y] on, up to [stop]. *)
Fixpoint month_ends (fuel : nat) (y m : Z) (stop : date) : list date :=
  match fuel with
  | O => []
  | S k =>
      let d := month_end y m in
      if date_leb d stop then
        d :: (if m =? 12 then month_ends k (y + 1) 1 stop
              else month_ends k y (m + 1) stop)
      else []
  end.

(** Frequency ['M'] is month end: the range holds every month end [d] with
    [start <= d <= stop].  The end of the month of [start] is never before
    [start], so the enumeration begins there; there are at most as many
    entries as calendar months touched by the interval. *)
Definition date_range_M (start stop : date) : list date :=
  let span := (year stop - year start) * 12 + (month stop - month start) + 1 in
  month_ends (Z.to_nat span) (year start) (month start) stop.

(** ** The five tables *)

Module CountryKPI.
Record t : Type := mk
  { country : list string;
    total_rentals : list Z;
    avg_rating : list Q;
    total_revenue : list Z }.
Definition len (df : t) : nat := length (country df).
End CountryKPI.

Module GenrePerformance.
Record t : Type := mk
  { genre : list string;
    avg_rating : list Q;
    total_rentals : list Z;
    avg_price : list Q }.
Definition len (df : t) : nat := length (genre df).
End GenrePerformance.

Module CustomerSegment.
Record t : Type := mk
  { segment : list string;
    customer_count : list Z;
    avg_revenue_per_customer : list Q }.
Definition len (df : t) : nat := length (segment df).
End CustomerSegment.

Module MonthlyTrend.
Record t : Type := mk
  { month : list date;
    rentals : list Z;
    revenue : list Z;
    new_customers : list Z }.
Definition len (df : t) : nat := length (month df).
End MonthlyTrend.

Module ActorAnalysis.
Record t : Type := mk
  { nationality : list string;
    male_actors : list Z;
    female_actors : list Z;
    avg_rating : list Q }.
Definition len (df : t) : nat := length (nationality df).
End ActorAnalysis.

(** The instance attributes of a [MovieNowVisualizer]. *)
Record MovieNowVisualizer : Type := mkVisualizer
  { country_kpis : CountryKPI.t;
    genre_performance : GenrePerformance.t;
    customer_segments : CustomerSegment.t;
    monthly_trends : MonthlyTrend.t;
    actor_analysis : ActorAnalysis.t }.

Definition sample_country_kpis : CountryKPI.t :=
  {| CountryKPI.country :=
       ["USA"; "Germany"; "UK"; "France"; "Spain"; "Belgium"; "Canada"];
     CountryKPI.total_rentals := [1250; 890; 720; 650; 580; 320; 420];
     CountryKPI.avg_rating := [7.2; 7.8; 7.5; 7.1; 7.9; 8.1; 7.3]%Q;
     CountryKPI.total_revenue := [8750; 6230; 5040; 4550; 4060; 2240; 2940] |}.

Definition sample_genre_performance : GenrePerformance.t :=
  {| GenrePerformance.genre :=
       ["Drama"; "Comedy"; "Action"; "Horror"; "Romance"; "Thriller"; "Sci-Fi"];
     GenrePerformance.avg_rating := [8.1; 7.3; 6.9; 6.2; 7.8; 7.1; 7.5]%Q;
     GenrePerformance.total_rentals := [980; 1200; 1100; 450; 680; 720; 380];
     GenrePerformance.avg_price := [4.50; 3.80; 4.20; 3.50; 4.10; 4.00; 4.80]%Q |}.

Definition sample_customer_segments : CustomerSegment.t :=
  {| CustomerSegment.segment :=
       ["High Value (10+ rentals)"; "Regular (5-9 rentals)";
        "Casual (1-4 rentals)"; "At Risk (rating < 4)"];
     CustomerSegment.customer_count := [245; 680; 1420; 180];
     CustomerSegment.avg_revenue_per_customer := [45.20; 28.50; 12.80; 15.60]%Q |}.

Definition sample_actor_analysis : ActorAnalysis.t :=
  {| ActorAnalysis.nationality :=
       ["USA"; "UK"; "Germany"; "France"; "Spain"; "Italy"];
     ActorAnalysis.male_actors := [45; 32; 18; 15; 12; 8];
     ActorAnalysis.female_actors := [38; 28; 16; 13; 11; 7];
     ActorAnalysis.avg_rating := [7.1; 7.6; 7.8; 7.3; 7.9; 7.4]%Q |}.

Definition months : list date :=
  date_range_M (mkdate 2018 1 1) (mkdate 2019 12 31).

(** ** Derived statistics *)

(** *** Min-max normalisation

    [(performance_matrix - performance_matrix.min())
       / (performance_matrix.max() - performance_matrix.min())]:
    pandas takes the minimum and the maximum of every column and broadcasts
    them over the rows of that column. *)
Definition column_min (x : Q) (r : list Q) : Q := fold_right Qmin x r.
Definition column_max (x : Q) (r : list Q) : Q := fold_right Qmax x r.

Definition normalize_column (col : list Q) : list float64 :=
  match col with
  | [] => []
  | x :: r =>
      let lo := column_min x r in
      let hi := column_max x r in
      map (fun v => truediv (v - lo) (hi - lo)) col
  end.

(** [country_kpis.set_index('country')[['total_rentals', 'avg_rating',
    'total_revenue']]], column by column. *)
Definition performance_matrix (df : CountryKPI.t) : list (string * list Q) :=
  [ ("total_rentals", map of_int (CountryKPI.total_rentals df));
    ("avg_rating", CountryKPI.avg_rating df);
    ("total_revenue", map of_int (CountryKPI.total_revenue df)) ].

Definition normalized_matrix (df : CountryKPI.t) : list (string * list float64) :=
  map (fun c => (fst c, normalize_column (snd c))) (performance_matrix df).

(** *** Descending ranks *)

Definition count (p : Q -> bool) (l : list Q) : nat := length (List.filter p l).

(** How many rows of [col] are strictly larger than [v], and how many are
    equal to it. *)
Definition larger (col : list Q) (v : Q) : nat := count (fun u => Qltb v u) col.
Definition tied (col : list Q) (v : Q) : nat := count (fun u => Qeq_bool u v) col.

(** The 1-based places [g+1 .. g+e] that a group of [e] equal values takes
    in the descending order when [g] values are strictly larger. *)
Definition places (g e : nat) : list Q :=
  map (fun k => inject_Z (Z.of_nat k)) (seq (S g) e).

(** Modelled from the spec: pandas' [DataFrame.rank] is library code that the
    repository does not contain.  [rank(ascending=False)] with the default
    [method='average'] orders a column from the largest value down and gives
    every value the average of the places that the values equal to it take. *)
Definition rank_descending (col : list Q) : list Q :=
  map (fun v =>
         let g := larger col v in
         let e := tied col v in
         (Qsum (places g e) / inject_Z (Z.of_nat e))%Q) col.

Definition genre_metrics (df : GenrePerformance.t) : list (string * list Q) :=
  [ ("avg_rating", GenrePerformance.avg_rating df);
    ("total_rentals", map of_int (GenrePerformance.total_rentals df));
    ("avg_price", GenrePerformance.avg_price df) ].

Definition rankings (df : GenrePerformance.t) : list (string * list Q) :=
  map (fun c => (fst c, rank_descending (snd c))) (genre_metrics df).

(** *** Degree-1 trend line *)

Inductive fit : Type :=
| Fit (slope intercept : Q)
| RankDeficient
| BadInput.

Definition Qdot (x y : list Q) : Q :=
  Qsum (map (fun p => (fst p * snd p)%Q) (combine x y)).

Definition fit_denominator (x : list Q) : Q :=
  (inject_Z (Z.of_nat (length x)) * Qdot x x - Qsum x * Qsum x)%Q.

(** Modelled from the spec: [np.polyfit(x, y, 1)] is library code that the
    repository does not contain; it is the degree-1 least-squares fit,
    computed here by the closed form of the normal equations.  NumPy refuses
    an empty [x] and an [x], [y] of different lengths with a [TypeError].
    When all abscissae coincide the system is rank deficient and the closed
    form does not apply; that case is kept apart as [RankDeficient]. *)
Definition polyfit1 (x y : list Q) : fit :=
  if negb (Nat.eqb (length x) (length y)) then BadInput
  else if Nat.eqb (length x) 0 then BadInput
  else
    let n := inject_Z (Z.of_nat (length x)) in
    let d := fit_denominator x in
    if Qeq_bool d 0 then RankDeficient
    else
      let a := ((n * Qdot x y - Qsum x * Qsum y) / d)%Q in
      let b := ((Qsum y - a * Qsum x) / n)%Q in
      Fit a b.

(** [np.poly1d([a, b])(x)], element-wise. *)
Definition poly1d (a b : Q) (x : list Q) : list Q :=
  map (fun v => (a * v + b)%Q) x.

(** [range(n)] as numbers. *)
Definition range (n : nat) : list Q :=
  map (fun k => inject_Z (Z.of_nat k)) (seq 0 n).

(** The sum of squared residuals of the line [a * x + b] against [y]. *)
Definition residuals (a b : Q) (x y : list Q) : Q :=
  Qsum (map (fun p => ((a * fst p + b - snd p) * (a * fst p + b - snd p))%Q)
            (combine x y)).

(** The sums of the normal equations, over a list of points. *)
Definition Sx (l : list (Q * Q)) : Q := Qsum (map fst l).
Definition Sy (l : list (Q * Q)) : Q := Qsum (map snd l).
Definition Sxx (l : list (Q * Q)) : Q := Qsum (map (fun p => (fst p * fst p)%Q) l).
Definition Sxy (l : list (Q * Q)) : Q := Qsum (map (fun p => (fst p * snd p)%Q) l).
Definition Syy (l : list (Q * Q)) : Q := Qsum (map (fun p => (snd p * snd p)%Q) l).
Definition card (l : list (Q * Q)) : Q := inject_Z (Z.of_nat (length l)).

Definition genre_trend (df : GenrePerformance.t) : fit :=
  polyfit1 (GenrePerformance.avg_price df) (GenrePerformance.avg_rating df).

Definition rentals_trend (df : MonthlyTrend.t) : fit :=
  polyfit1 (range (MonthlyTrend.len df)) (map of_int (MonthlyTrend.rentals df)).

(** *** Element-wise ratios and products *)

Definition series_div (a b : list Q) : list float64 :=
  map (fun p => truediv (fst p) (snd p)) (combine a b).

Definition series_mul (a b : list Q) : list Q :=
  map (fun p => (fst p * snd p)%Q) (combine a b).

Definition revenue_per_rental (df : MonthlyTrend.t) : list float64 :=
  series_div (map of_int (MonthlyTrend.revenue df))
             (map of_int (MonthlyTrend.rentals df)).

(** [Series.mean()]: the sum over the number of rows, NaN on no rows. *)
Definition series_mean (l : list Q) : float64 :=
  truediv (Qsum l) (inject_Z (Z.of_nat (length l))).

(** ** Figures

    What a charting call receives: numbers, category names or dates. *)
Inductive cell : Type :=
| Num (v : float64)
| Str (s : string)
| Day (d : date).

Definition ints (l : list Z) : list cell := map (fun z => Num (Finite (of_int z))) l.
Definition floats (l : list Q) : list cell := map (fun q => Num (Finite q)) l.
Definition strs (l : list string) : list cell := map Str l.
Definition days (l : list date) : list cell := map Day l.

(** An f-string with one numeric field: the format spec and the value. *)
Inductive label : Type :=
| Lit (s : string)
| Fmt (spec : string) (v : Q).

Inductive artist : Type :=
| set_title (s : string)
| set_xlabel (s : string)
| set_ylabel (s : string)
| set_xlim (lo hi : Q)
| set_xticks (t : list Z)
| set_xticklabels (l : list string)
| set_yticks (t : list Z)
| set_yticklabels (l : list string)
| bar (x height : list cell)
| barh (y width : list cell)
| scatter (x y : list cell) (s : list Q)
| plot (x y : list cell) (legend_label : option string)
| pie (x : list cell) (labels : list string) (autopct : string) (startangle : Z)
| imshow (rows : list (list cell))
| annotate (txt : string) (x y : cell)
| text (x y : Q) (s : label)
| axhline (y : float64)
| axvline (x : float64)
| legend
| grid.

Inductive call : Type :=
| suptitle (s : string)
| on_axes (ax : nat) (a : artist).

Definition figure : Type := list call.

Inductive trace : Type :=
| go_Bar (x y : list cell) (name : string)
| go_Pie (labels values : list cell) (name : string)
| go_Scatter (x y : list cell) (mode name : string).

Inductive plotly_call : Type :=
| make_subplots (rows cols : Z) (subplot_titles : list string)
| add_trace (t : trace) (row col : Z) (secondary_y : bool)
| update_layout (title_text : string) (height : Z)
| update_yaxes (title_text : string) (row col : Z) (secondary_y : bool).

Definition plotly_figure : Type := list plotly_call.

(** What ends up in a file. *)
Inductive artifact : Type :=
| Png (fig : figure)
| Html (fig : plotly_figure).

(** *** Small helpers on sequences and strings *)

Definition enumerate {A : Type} (l : list A) : list (nat * A) :=
  combine (seq 0 (length l)) l.

Definition zrange (n : nat) : list Z := map Z.of_nat (seq 0 n).

Definition nth_int (l : list Z) (i : nat) : cell :=
  Num (Finite (of_int (nth i l 0))).
Definition nth_float (l : list Q) (i : nat) : cell :=
  Num (Finite (nth i l 0%Q)).

(** The place of a category on a categorical axis: matplotlib numbers the
    categories in the order of their first appearance. *)
Fixpoint first_index (s : string) (l : list string) : nat :=
  match l with
  | [] => O
  | t :: r => if String.eqb s t then O else S (first_index s r)
  end.

(** [ax.bar] returns one rectangle per row; a bar is centred on its
    position and 0.8 wide. *)
Record rectangle : Type := mkrect { get_x : Q; get_width : Q; get_height : Q }.

Definition bars_at (pos : list Q) (height : list Q) : list rectangle :=
  map (fun p => mkrect (fst p - 0.4)%Q 0.8%Q (snd p)) (combine pos height).

Definition category_positions (l : list string) : list Q :=
  map (fun s => inject_Z (Z.of_nat (first_index s l))) l.

(** [s.replace(' ', '\n')] *)
Fixpoint replace_space_newline (s : string) : string :=
  match s with
  | EmptyString => EmptyString
  | String c r =>
      String (if Ascii.eqb c " "%char then "010"%char else c)
             (replace_space_newline r)
  end.

(** [s.split(' ')[0]] *)
Fixpoint first_word (s : string) : string :=
  match s with
  | EmptyString => EmptyString
  | String c r => if Ascii.eqb c " "%char then EmptyString else String c (first_word r)
  end.

(** ["=" * n] *)
Fixpoint str_repeat (s : string) (n : nat) : string :=
  match n with
  | O => EmptyString
  | S k => (s ++ str_repeat s k)%string
  end.

Definition str_of_nat (n : nat) : string :=
  NilEmpty.string_of_uint (Nat.to_uint n).

(** Exceptions that the modelled part of the run can raise. *)
Inductive exn : Type :=
| AttributeError (attr : string)
| TypeError (msg : string)
| LinAlgError
| OSError (path : string).

(** A trend line that could not be computed stops the generator: NumPy
    raises on ill-formed input; on a rank-deficient system the closed form
    above has no value and the run is treated as stopped as well. *)
Definition trend_values (f : fit) (x : list Q) : exn + list Q :=
  match f with
  | Fit a b => inr (poly1d a b x)
  | RankDeficient => inl LinAlgError
  | BadInput => inl (TypeError "expected x and y to have same length")
  end.

(** *** The four static figures and the dashboard

    A pandas frame keeps all its columns at one length; the builders read
    rows by position and are meant for such frames. *)

Definition bar_labels (ax : nat) (off : Q) (spec : string) (bars : list rectangle)
  : figure :=
  map (fun b => on_axes ax (text (get_x b + get_width b / 2)%Q
                                 (get_height b + off)%Q
                                 (Fmt spec (get_height b)))) bars.

Definition country_figure (df : CountryKPI.t) : figure :=
  let country := CountryKPI.country df in
  let rentals := CountryKPI.total_rentals df in
  let revenue := CountryKPI.total_revenue df in
  let bars := bars_at (category_positions country) (map of_int revenue) in
  let normalized := normalized_matrix df in
  [ suptitle "Country Performance Dashboard";
    on_axes 1 (bar (strs country) (ints revenue));
    on_axes 1 (set_title "Total Revenue by Country");
    on_axes 1 (set_ylabel "Revenue ($)") ]
  ++ bar_labels 1 50 "${:,.0f}" bars
  ++ [ on_axes 2 (barh (strs country) (floats (CountryKPI.avg_rating df)));
       on_axes 2 (set_title "Average Rating by Country");
       on_axes 2 (set_xlabel "Average Rating");
       on_axes 2 (set_xlim 6.5 8.5);
       on_axes 3 (scatter (ints rentals) (ints revenue) [200%Q]);
       on_axes 3 (set_title "Rentals vs Revenue by Country");
       on_axes 3 (set_xlabel "Total Rentals");
       on_axes 3 (set_ylabel "Total Revenue ($)") ]
  ++ map (fun ic => on_axes 3 (annotate (snd ic) (nth_int rentals (fst ic))
                                        (nth_int revenue (fst ic))))
         (enumerate country)
  ++ [ on_axes 4 (imshow (map (fun c => map Num (snd c)) normalized));
       on_axes 4 (set_title "Performance Heatmap (Normalized)");
       on_axes 4 (set_xticks (zrange (length country)));
       on_axes 4 (set_xticklabels country);
       on_axes 4 (set_yticks (zrange (length normalized)));
       on_axes 4 (set_yticklabels ["Rentals"; "Avg Rating"; "Revenue"]) ].

(** The rank numbers written into the ranking matrix: column [i], row [j],
    as [int(rankings.iloc[j, i])]. *)
Definition ranking_numbers (rk : list (string * list Q)) : figure :=
  flat_map
    (fun ic =>
       map (fun jr => on_axes 4 (text (inject_Z (Z.of_nat (fst jr)))
                                      (inject_Z (Z.of_nat (fst ic)))
                                      (Fmt "{}" (of_int (astype_int (snd jr))))))
           (enumerate (snd (snd ic))))
    (enumerate rk).

Definition genre_figure (df : GenrePerformance.t) : exn + figure :=
  let genre := GenrePerformance.genre df in
  let rating := GenrePerformance.avg_rating df in
  let rentals := GenrePerformance.total_rentals df in
  let price := GenrePerformance.avg_price df in
  let bubble_sizes := map (fun p => (p * 50)%Q) price in
  let revenue_potential := series_mul (map of_int rentals) price in
  let rk := rankings df in
  match trend_values (genre_trend df) price with
  | inl e => inl e
  | inr trend =>
      inr
        ([ suptitle "Genre Performance Analysis";
           on_axes 1 (scatter (floats rating) (ints rentals) bubble_sizes);
           on_axes 1 (set_title "Genre Performance: Rating vs Popularity");
           on_axes 1 (set_xlabel "Average Rating");
           on_axes 1 (set_ylabel "Total Rentals") ]
         ++ map (fun ig => on_axes 1 (annotate (snd ig) (nth_float rating (fst ig))
                                               (nth_int rentals (fst ig))))
                (enumerate genre)
         ++ [ on_axes 2 (bar (strs genre) (floats revenue_potential));
              on_axes 2 (set_title "Revenue Potential by Genre");
              on_axes 2 (set_ylabel "Revenue Potential ($)");
              on_axes 3 (scatter (floats price) (floats rating) [100%Q]);
              on_axes 3 (set_title "Pricing vs Quality");
              on_axes 3 (set_xlabel "Average Price ($)");
              on_axes 3 (set_ylabel "Average Rating");
              on_axes 3 (plot (floats price) (floats trend) None);
              on_axes 4 (imshow (map (fun c => floats (snd c)) rk));
              on_axes 4 (set_title "Genre Rankings (1 = Best)");
              on_axes 4 (set_xticks (zrange (length genre)));
              on_axes 4 (set_xticklabels genre);
              on_axes 4 (set_yticks (zrange (length rk)));
              on_axes 4 (set_yticklabels
                           ["Rating Rank"; "Popularity Rank"; "Price Rank"]) ]
         ++ ranking_numbers rk)
  end.

Definition customer_figure (df : CustomerSegment.t) : figure :=
  let segment := CustomerSegment.segment df in
  let customers := CustomerSegment.customer_count df in
  let per_customer := CustomerSegment.avg_revenue_per_customer df in
  let n := CustomerSegment.len df in
  let bars := bars_at (range n) per_customer in
  let total_revenue_impact := series_mul (map of_int customers) per_customer in
  [ suptitle "Customer Segmentation Analysis";
    on_axes 1 (pie (ints customers) segment "%1.1f%%" 90);
    on_axes 1 (set_title "Customer Distribution by Segment");
    on_axes 2 (bar (ints (zrange n)) (floats per_customer));
    on_axes 2 (set_title "Average Revenue per Customer by Segment");
    on_axes 2 (set_ylabel "Average Revenue ($)");
    on_axes 2 (set_xticks (zrange n));
    on_axes 2 (set_xticklabels (map replace_space_newline segment)) ]
  ++ bar_labels 2 0.5 "${:.2f}" bars
  ++ [ on_axes 3 (barh (strs segment) (floats total_revenue_impact));
       on_axes 3 (set_title "Total Revenue Impact by Segment");
       on_axes 3 (set_xlabel "Total Revenue Impact ($)");
       on_axes 4 (scatter (ints customers) (floats per_customer) [300%Q]);
       on_axes 4 (set_title "Segment Size vs Value");
       on_axes 4 (set_xlabel "Number of Customers");
       on_axes 4 (set_ylabel "Average Revenue per Customer ($)");
       on_axes 4 (axhline (series_mean per_customer));
       on_axes 4 (axvline (series_mean (map of_int customers))) ]
  ++ map (fun sg => on_axes 4 (annotate (first_word (snd sg))
                                        (nth_int customers (fst sg))
                                        (nth_float per_customer (fst sg))))
         (enumerate segment).

Definition temporal_figure (df : MonthlyTrend.t) : exn + figure :=
  let month := days (MonthlyTrend.month df) in
  let x_numeric := range (MonthlyTrend.len df) in
  match trend_values (rentals_trend df) x_numeric with
  | inl e => inl e
  | inr trend =>
      inr
        [ suptitle "Temporal Analysis - Business Trends";
          on_axes 1 (plot month (ints (MonthlyTrend.rentals df)) None);
          on_axes 1 (set_title "Monthly Rental Trends");
          on_axes 1 (set_ylabel "Number of Rentals");
          on_axes 1 grid;
          on_axes 1 (plot month (floats trend) (Some "Trend"));
          on_axes 1 legend;
          on_axes 2 (plot month (ints (MonthlyTrend.revenue df)) None);
          on_axes 2 (set_title "Monthly Revenue Trends");
          on_axes 2 (set_ylabel "Revenue ($)");
          on_axes 2 grid;
          on_axes 3 (bar month (ints (MonthlyTrend.new_customers df)));
          on_axes 3 (set_title "New Customer Acquisition");
          on_axes 3 (set_ylabel "New Customers");
          on_axes 4 (plot month (map Num (revenue_per_rental df)) None);
          on_axes 4 (set_title "Revenue Efficiency (Revenue per Rental)");
          on_axes 4 (set_ylabel "Revenue per Rental ($)");
          on_axes 4 grid ]
  end.

Definition interactive_figure (v : MovieNowVisualizer) : plotly_figure :=
  let ck := country_kpis v in
  let gp := genre_performance v in
  let cs := customer_segments v in
  let mt := monthly_trends v in
  [ make_subplots 2 2 ["Country Revenue Performance"; "Genre Rating Distribution";
                       "Customer Segments"; "Monthly Trends"];
    add_trace (go_Bar (strs (CountryKPI.country ck))
                      (ints (CountryKPI.total_revenue ck)) "Revenue") 1 1 false;
    add_trace (go_Bar (strs (GenrePerformance.genre gp))
                      (floats (GenrePerformance.avg_rating gp)) "Avg Rating") 1 2 false;
    add_trace (go_Pie (strs (CustomerSegment.segment cs))
                      (ints (CustomerSegment.customer_count cs))
                      "Customer Segments") 2 1 false;
    add_trace (go_Scatter (days (MonthlyTrend.month mt))
                          (ints (MonthlyTrend.rentals mt))
                          "lines+markers" "Rentals") 2 2 false;
    add_trace (go_Scatter (days (MonthlyTrend.month mt))
                          (ints (MonthlyTrend.revenue mt))
                          "lines+markers" "Revenue") 2 2 true;
    update_layout "MovieNow Business Intelligence Dashboard" 800;
    update_yaxes "Rentals" 2 2 false;
    update_yaxes "Revenue ($)" 2 2 true ].

(** ** The process: state, exceptions and effects *)

Definition newline : string := String "010"%char EmptyString.

Fixpoint has_slash (s : string) : bool :=
  match s with
  | EmptyString => false
  | String c r => Ascii.eqb c "/"%char || has_slash r
  end.

(** [os.path.dirname] of a relative path: what precedes the last slash. *)
Fixpoint dirname (s : string) : string :=
  match s with
  | EmptyString => EmptyString
  | String c r => if has_slash r then String c (dirname r) else EmptyString
  end.

Section Program.

(** NumPy's legacy global generator: the state, [np.random.seed], which
    replaces the state by one computed from the seed alone, and the
    standard-normal sampler behind [np.random.normal]. *)
Context {rng_state : Type}.
Variable mt19937_seed : Z -> rng_state.
Variable legacy_gauss : rng_state -> Q * rng_state.

(** [plt.style.available], the style sheets installed with matplotlib. *)
Variable style_available : list string.

Record state : Type := mkstate
  { visualizer : option MovieNowVisualizer;
    np_random : rng_state;
    rc_style : list string;
    dirs : gset string;
    files : gmap string artifact;
    shown : list figure;
    stdout : string }.

Inductive outcome (A : Type) : Type :=
| Ok (a : A) (s : state)
| Raised (e : exn) (s : state).
Arguments Ok {A} a s.
Arguments Raised {A} e s.

Definition final {A : Type} (o : outcome A) : state :=
  match o with Ok _ s => s | Raised _ s => s end.

Definition succeeded {A : Type} (o : outcome A) : bool :=
  match o with Ok _ _ => true | Raised _ _ => false end.

Definition M (A : Type) : Type := state -> outcome A.

#[global] Instance M_ret : MRet M := fun A a s => Ok a s.
#[global] Instance M_bind : MBind M := fun A B f c s =>
  match c s with
  | Ok a s' => f a s'
  | Raised e s' => Raised e s'
  end.

Definition raise {A : Type} (e : exn) : M A := fun s => Raised e s.

Definition lift {A : Type} (r : exn + A) : M A :=
  match r with inl e => raise e | inr a => mret a end.

(** [try: c  except OSError: handler] *)
Definition try_except_OSError (c handler : M unit) : M unit := fun s =>
  match c s with
  | Raised (OSError _) s' => handler s'
  | o => o
  end.

Definition modify (f : state -> state) : M unit := fun s => Ok tt (f s).

Definition set_visualizer (v : MovieNowVisualizer) (s : state) : state :=
  mkstate (Some v) (np_random s) (rc_style s) (dirs s) (files s) (shown s) (stdout s).
Definition set_np_random (g : rng_state) (s : state) : state :=
  mkstate (visualizer s) g (rc_style s) (dirs s) (files s) (shown s) (stdout s).
Definition add_rc_style (name : string) (s : state) : state :=
  mkstate (visualizer s) (np_random s) (rc_style s ++ [name]) (dirs s) (files s)
          (shown s) (stdout s).
Definition add_dir (p : string) (s : state) : state :=
  mkstate (visualizer s) (np_random s) (rc_style s) ({[p]} ∪ dirs s) (files s)
          (shown s) (stdout s).
Definition write_file (p : string) (a : artifact) (s : state) : state :=
  mkstate (visualizer s) (np_random s) (rc_style s) (dirs s) (<[p:=a]> (files s))
          (shown s) (stdout s).
Definition add_shown (f : figure) (s : state) : state :=
  mkstate (visualizer s) (np_random s) (rc_style s) (dirs s) (files s)
          (shown s ++ [f]) (stdout s).
Definition add_stdout (t : string) (s : state) : state :=
  mkstate (visualizer s) (np_random s) (rc_style s) (dirs s) (files s) (shown s)
          (stdout s ++ t ++ newline)%string.

Definition print (t : string) : M unit := modify (add_stdout t).

(** *** The file system *)

Definition os_path_exists (p : string) (s : state) : bool :=
  bool_decide (p ∈ dirs s) || bool_decide (p ∈ dom (files s)).

Definition os_makedirs (p : string) : M unit := fun s =>
  if os_path_exists p s then Raised (OSError p) s else Ok tt (add_dir p s).

(** Creating or overwriting a file needs its directory to be there and
    the path not to be a directory itself. *)
Definition open_for_writing (p : string) (a : artifact) : M unit := fun s =>
  let d := dirname p in
  if negb (String.eqb d "") && negb (bool_decide (d ∈ dirs s)) then
    Raised (OSError p) s
  else if bool_decide (p ∈ dirs s) then Raised (OSError p) s
  else Ok tt (write_file p a s).

Definition savefig (p : string) (f : figure) : M unit := open_for_writing p (Png f).
Definition write_html (p : string) (f : plotly_figure) : M unit :=
  open_for_writing p (Html f).
Definition plt_show (f : figure) : M unit := modify (add_shown f).

(** *** Styles *)

Definition style_use (name : string) : M unit := fun s =>
  if String.eqb name "default" || bool_decide (name ∈ style_available)
  then Ok tt (add_rc_style name s)
  else Raised (OSError name) s.

Definition select_style : M unit :=
  try_except_OSError (style_use "seaborn-v0_8")
    (try_except_OSError (style_use "seaborn")
       (style_use "default";;
        print "Note: Using default matplotlib style. For better visuals, consider updating matplotlib/seaborn.")).

(** *** The random draws *)

Definition np_random_seed (seed : Z) : M unit := modify (set_np_random (mt19937_seed seed)).

Fixpoint normal_draws (loc scale : Q) (n : nat) (g : rng_state)
  : list Q * rng_state :=
  match n with
  | O => ([], g)
  | S k =>
      let (z, g1) := legacy_gauss g in
      let (r, g2) := normal_draws loc scale k g1 in
      ((loc + scale * z)%Q :: r, g2)
  end.

(** [np.random.normal(loc, scale, size)] *)
Definition np_random_normal (loc scale : Q) (size : nat) : M (list Q) := fun s =>
  let (r, g) := normal_draws loc scale size (np_random s) in
  Ok r (set_np_random g s).

(** *** [class MovieNowVisualizer] *)

(** The three columns drawn right after reseeding with 42, and the
    generator state that the draws leave behind. *)
Definition seeded_columns : (list Q * list Q * list Q) * rng_state :=
  let (rentals, g1) := normal_draws 800 150 (length months) (mt19937_seed 42) in
  let (revenue, g2) := normal_draws 5600 1050 (length months) g1 in
  let (new_customers, g3) := normal_draws 45 12 (length months) g2 in
  ((rentals, revenue, new_customers), g3).

(** The tables, as [setup_sample_data] below stores them. *)
Definition sample_visualizer : MovieNowVisualizer :=
  {| country_kpis := sample_country_kpis;
     genre_performance := sample_genre_performance;
     customer_segments := sample_customer_segments;
     monthly_trends :=
       {| MonthlyTrend.month := months;
          MonthlyTrend.rentals := map astype_int (fst (fst (fst seeded_columns)));
          MonthlyTrend.revenue := map astype_int (snd (fst (fst seeded_columns)));
          MonthlyTrend.new_customers := map astype_int (snd (fst seeded_columns)) |};
     actor_analysis := sample_actor_analysis |}.

Definition setup_sample_data : M unit :=
  np_random_seed 42;;
  rentals ← np_random_normal 800 150 (length months);
  revenue ← np_random_normal 5600 1050 (length months);
  new_customers ← np_random_normal 45 12 (length months);
  modify (set_visualizer
            {| country_kpis := sample_country_kpis;
               genre_performance := sample_genre_performance;
               customer_segments := sample_customer_segments;
               monthly_trends :=
                 {| MonthlyTrend.month := months;
                    MonthlyTrend.rentals := map astype_int rentals;
                    MonthlyTrend.revenue := map astype_int revenue;
                    MonthlyTrend.new_customers := map astype_int new_customers |};
               actor_analysis := sample_actor_analysis |}).

Definition create_output_directory : M unit := fun s =>
  if negb (os_path_exists "visualizations" s) then os_makedirs "visualizations" s
  else Ok tt s.

Definition init : M unit :=
  setup_sample_data;;
  create_output_directory.

(** Reading an attribute of [self]. *)
Definition attribute {A : Type} (name : string) (get : MovieNowVisualizer -> A)
  : M A := fun s =>
  match visualizer s with
  | Some v => Ok (get v) s
  | None => Raised (AttributeError name) s
  end.

Definition create_country_performance_dashboard : M unit :=
  df ← attribute "country_kpis" country_kpis;
  let fig := country_figure df in
  savefig "visualizations/country_performance_dashboard.png" fig;;
  plt_show fig.

Definition create_genre_analysis : M unit :=
  df ← attribute "genre_performance" genre_performance;
  fig ← lift (genre_figure df);
  savefig "visualizations/genre_analysis.png" fig;;
  plt_show fig.

Definition create_customer_segmentation_viz : M unit :=
  df ← attribute "customer_segments" customer_segments;
  let fig := customer_figure df in
  savefig "visualizations/customer_segmentation.png" fig;;
  plt_show fig.

Definition create_temporal_analysis : M unit :=
  df ← attribute "monthly_trends" monthly_trends;
  fig ← lift (temporal_figure df);
  savefig "visualizations/temporal_analysis.png" fig;;
  plt_show fig.

Definition create_interactive_dashboard : M plotly_figure :=
  fig ← attribute "country_kpis" interactive_figure;
  write_html "visualizations/interactive_dashboard.html" fig;;
  print "Interactive dashboard saved as 'visualizations/interactive_dashboard.html'";;
  mret fig.

Definition generate_all_visualizations : M unit :=
  print "Generating MovieNow Business Intelligence Visualizations...";;
  print "1. Creating Country Performance Dashboard...";;
  create_country_performance_dashboard;;
  print "2. Creating Genre Analysis...";;
  create_genre_analysis;;
  print "3. Creating Customer Segmentation...";;
  create_customer_segmentation_viz;;
  print "4. Creating Temporal Analysis...";;
  create_temporal_analysis;;
  print "5. Creating Interactive Dashboard...";;
  _ ← create_interactive_dashboard;
  print (newline ++ "All visualizations generated successfully!")%string;;
  print "Files saved in 'visualizations/' directory:";;
  print "- country_performance_dashboard.png";;
  print "- genre_analysis.png";;
  print "- customer_segmentation.png";;
  print "- temporal_analysis.png";;
  print "- interactive_dashboard.html".

(** The five report generators. *)
Inductive generator : Type :=
| Country
| Genre
| Customer
| Temporal
| Interactive.

Definition run_generator (g : generator) : M unit :=
  match g with
  | Country => create_country_performance_dashboard
  | Genre => create_genre_analysis
  | Customer => create_customer_segmentation_viz
  | Temporal => create_temporal_analysis
  | Interactive => _ ← create_interactive_dashboard; mret tt
  end.

(** *** Module level *)

Fixpoint print_each (l : list string) : M unit :=
  match l with
  | [] => mret tt
  | style :: r => print ("  - " ++ style)%string;; print_each r
  end.

Definition check_available_styles : M unit :=
  print "Available matplotlib styles:";;
  print_each style_available.

Definition rule : string := str_repeat "=" 50.

(** The script from its first statement to its last, run as [__main__]. *)
Definition main : M unit :=
  select_style;;
  modify (add_rc_style "whitegrid");;
  modify (add_rc_style "husl");;
  print "Checking matplotlib configuration...";;
  check_available_styles;;
  print (newline ++ rule)%string;;
  init;;
  generate_all_visualizations;;
  print (newline ++ rule)%string;;
  print "MOVIENOW BUSINESS INTELLIGENCE - SUMMARY STATS";;
  print rule;;
  n ← attribute "country_kpis" (fun v => CountryKPI.len (country_kpis v));
  print ("Countries Analyzed: " ++ str_of_nat n)%string;;
  n ← attribute "genre_performance" (fun v => GenrePerformance.len (genre_performance v));
  print ("Genres Analyzed: " ++ str_of_nat n)%string;;
  n ← attribute "customer_segments" (fun v => CustomerSegment.len (customer_segments v));
  print ("Customer Segments: " ++ str_of_nat n)%string;;
  n ← attribute "monthly_trends" (fun v => MonthlyTrend.len (monthly_trends v));
  print ("Time Period: " ++ str_of_nat n ++ " months")%string;;
  print rule.

(** A fresh interpreter: no visualizer yet, nothing printed or shown; the
    generator state and the working directory are whatever they are. *)
Definition fresh (g : rng_state) (d : gset string) (f : gmap string artifact)
  : state :=
  mkstate None g [] d f [] "".

End Program.

Arguments Ok {rng_state A} a s.
Arguments Raised {rng_state A} e s.
Arguments state : clear implicits.
Arguments M : clear implicits.

(** ** Vocabulary of the statements *)

Definition output_paths : list string :=
  [ "visualizations/country_performance_dashboard.png";
    "visualizations/genre_analysis.png";
    "visualizations/customer_segmentation.png";
    "visualizations/temporal_analysis.png";
    "visualizations/interactive_dashboard.html" ].

(** The working directory lets the run write its output: no regular file
    is in the way of the output directory, and no directory is in the way
    of an output file. *)
Definition clear_to_write (d : gset string) (f : gmap string artifact) : Prop :=
  ("visualizations" ∉ dom f) /\ (forall p, In p output_paths -> p ∉ d).

(** Console text, line by line. *)
Fixpoint unlines (l : list string) : string :=
  match l with
  | [] => EmptyString
  | t :: r => (t ++ newline ++ unlines r)%string
  end.

Definition progress_lines : list string :=
  [ "Generating MovieNow Business Intelligence Visualizations...";
    "1. Creating Country Performance Dashboard...";
    "2. Creating Genre Analysis...";
    "3. Creating Customer Segmentation...";
    "4. Creating Temporal Analysis...";
    "5. Creating Interactive Dashboard...";
    "Interactive dashboard saved as 'visualizations/interactive_dashboard.html'";
    "";
    "All visualizations generated successfully!" ].

Definition saved_files_lines : list string :=
  [ "Files saved in 'visualizations/' directory:";
    "- country_performance_dashboard.png";
    "- genre_analysis.png";
    "- customer_segmentation.png";
    "- temporal_analysis.png";
    "- interactive_dashboard.html" ].

Definition summary_lines : list string :=
  [ "";
    rule;
    "MOVIENOW BUSINESS INTELLIGENCE - SUMMARY STATS";
    rule;
    "Countries Analyzed: 7";
    "Genres Analyzed: 7";
    "Customer Segments: 4";
    "Time Period: 24 months";
    rule ].

Definition output_path (g : generator) : string :=
  match g with
  | Country => "visualizations/country_performance_dashboard.png"
  | Genre => "visualizations/genre_analysis.png"
  | Customer => "visualizations/customer_segmentation.png"
  | Temporal => "visualizations/temporal_analysis.png"
  | Interactive => "visualizations/interactive_dashboard.html"
  end.

(** The visualizer with another actor table. *)
Definition with_actor_analysis (a : ActorAnalysis.t) (v : MovieNowVisualizer)
  : MovieNowVisualizer :=
  {| country_kpis := country_kpis v;
     genre_performance := genre_performance v;
     customer_segments := customer_segments v;
     monthly_trends := monthly_trends v;
     actor_analysis := a |}.

(** What a generator is about to write, as a function of the tables. *)
Definition generator_artifact (g : generator) (v : MovieNowVisualizer)
  : exn + artifact :=
  match g with
  | Country => inr (Png (country_figure (country_kpis v)))
  | Genre =>
      match genre_figure (genre_performance v) with
      | inl e => inl e
      | inr fig => inr (Png fig)
      end
  | Customer => inr (Png (customer_figure (customer_segments v)))
  | Temporal =>
      match temporal_figure (monthly_trends v) with
      | inl e => inl e
      | inr fig => inr (Png fig)
      end
  | Interactive => inr (Html (interactive_figure v))
  end.

Definition first_attribute (g : generator) : string :=
  match g with
  | Country => "country_kpis"
  | Genre => "genre_performance"
  | Customer => "customer_segments"
  | Temporal => "monthly_trends"
  | Interactive => "country_kpis"
  end.

(** Whether path [p] can be opened for writing among the directories [d]. *)
Definition writable (p : string) (d : gset string) : bool :=
  if negb (String.eqb (dirname p) "") && negb (bool_decide (dirname p ∈ d))
  then false
  else if bool_decide (p ∈ d) then false else true.

(** The artifact that a generator writes, or the exception that stops it,
    from the tables and the directories it finds. *)
Definition generator_result (g : generator) (ov : option MovieNowVisualizer)
  (d : gset string) : exn + artifact :=
  match ov with
  | None => inl (AttributeError (first_attribute g))
  | Some v =>
      match generator_artifact g v with
      | inl e => inl e
      | inr a => if writable (output_path g) d then inr a
                 else inl (OSError (output_path g))
      end
  end.

(** The state that a generator leaves after writing [a]. *)
Definition after_generator {rng_state : Type} (g : generator) (a : artifact)
  (s : state rng_state) : state rng_state :=
  match a with
  | Png fig => add_shown fig (write_file (output_path g) a s)
  | Html _ =>
      add_stdout
        "Interactive dashboard saved as 'visualizations/interactive_dashboard.html'"
        (write_file (output_path g) a s)
  end.

(** An action that leaves the tables of the visualizer as they are. *)
Definition keeps_tables {rng_state A : Type} (c : M rng_state A) : Prop :=
  forall s, visualizer (final (c s)) = visualizer s.

(** A stand-in for the generator, to run the statements on: the state is a
    counter and the samples climb in steps of a tenth. *)
Definition counter_seed (seed : Z) : nat := Z.to_nat seed.
Definition counter_gauss (n : nat) : Q * nat :=
  (((inject_Z (Z.of_nat n) - 50) / 10)%Q, S n).

(** ** Vocabulary of the further statements *)

Definition note_line : string :=
  "Note: Using default matplotlib style. For better visuals, consider updating matplotlib/seaborn.".

(** The style that the fallback at the top of the script ends up with. *)
Definition style_choice (available : list string) : string :=
  if bool_decide ("seaborn-v0_8" ∈ available) then "seaborn-v0_8"
  else if bool_decide ("seaborn" ∈ available) then "seaborn"
  else "default".

(** The standard-normal samples behind successive draws, and the generator
    state after them. *)
Fixpoint gauss_draws {rng_state : Type} (legacy_gauss : rng_state -> Q * rng_state)
  (n : nat) (g : rng_state) : list Q * rng_state :=
  match n with
  | O => ([], g)
  | S k =>
      let (z, g1) := legacy_gauss g in
      let (r, g2) := gauss_draws legacy_gauss k g1 in
      (z :: r, g2)
  end.

Fixpoint has_space (s : string) : bool :=
  match s with
  | EmptyString => false
  | String c r => Ascii.eqb c " "%char || has_space r
  end.

(** The lines that [check_available_styles] prints for the styles. *)
Fixpoint style_lines (styles : list string) : string :=
  match styles with
  | [] => EmptyString
  | t :: r => ("  - " ++ t ++ newline ++ style_lines r)%string
  end.

(** The figure inside an artifact of the interactive dashboard. *)
Definition html_figure (a : artifact) : plotly_figure :=
  match a with
  | Html fig => fig
  | Png _ => []
  end.

(** The generators in the order in which [generate_all_visualizations]
    calls them. *)
Definition generators : list generator :=
  [Country; Genre; Customer; Temporal; Interactive].

(** Tables to run the further statements on: a monthly table whose rentals
    are all zero, and a visualizer whose tables have no rows. *)
Definition idle_months : MonthlyTrend.t :=
  {| MonthlyTrend.month := months;
     MonthlyTrend.rentals := repeat 0 24;
     MonthlyTrend.revenue := repeat 5600 24;
     MonthlyTrend.new_customers := repeat 45 24 |}.

Definition no_rows : MovieNowVisualizer :=
  {| country_kpis := CountryKPI.mk [] [] [] [];
     genre_performance := GenrePerformance.mk [] [] [] [];
     customer_segments := CustomerSegment.mk [] [] [];
     monthly_trends := MonthlyTrend.mk [] [] [] [];
     actor_analysis := ActorAnalysis.mk [] [] [] [] |}.

(** * Properties *)

(** ** Min-max normalisation *)

Section Normalisation.

Local Open Scope Q_scope.

Lemma Qmin_cases (a b : Q) : Qmin a b = a \/ Qmin a b = b.
Proof. unfold Qmin, GenericMinMax.gmin. destruct (a ?= b); auto. Qed.

Lemma Qmax_cases (a b : Q) : Qmax a b = a \/ Qmax a b = b.
Proof. unfold Qmax, GenericMinMax.gmax. destruct (a ?= b); auto. Qed.

Lemma column_min_cons (x y : Q) (r : list Q) :
  column_min x (y :: r) = Qmin y (column_min x r).
Proof. reflexivity. Qed.

Lemma column_max_cons (x y : Q) (r : list Q) :
  column_max x (y :: r) = Qmax y (column_max x r).
Proof. reflexivity. Qed.

Lemma column_min_In (x : Q) (r : list Q) : In (column_min x r) (x :: r).
Proof.
  induction r as [|y r IH]; [now left|].
  rewrite column_min_cons.
  destruct (Qmin_cases y (column_min x r)) as [E|E]; rewrite E.
  - right; now left.
  - destruct IH as [IH|IH]; [now left | right; now right].
Qed.

Lemma column_max_In (x : Q) (r : list Q) : In (column_max x r) (x :: r).
Proof.
  induction r as [|y r IH]; [now left|].
  rewrite column_max_cons.
  destruct (Qmax_cases y (column_max x r)) as [E|E]; rewrite E.
  - right; now left.
  - destruct IH as [IH|IH]; [now left | right; now right].
Qed.

Lemma column_min_le (x : Q) (r : list Q) (v : Q) :
  In v (x :: r) -> column_min x r <= v.
Proof.
  induction r as [|y r IH].
  - intros [->|[]]. apply Qle_refl.
  - rewrite column_min_cons. intros [->|[->|H]].
    + eapply Qle_trans; [apply Q.le_min_r|]. apply IH. now left.
    + apply Q.le_min_l.
    + eapply Qle_trans; [apply Q.le_min_r|]. apply IH. now right.
Qed.

Lemma column_max_ge (x : Q) (r : list Q) (v : Q) :
  In v (x :: r) -> v <= column_max x r.
Proof.
  induction r as [|y r IH].
  - intros [->|[]]. apply Qle_refl.
  - rewrite column_max_cons. intros [->|[->|H]].
    + eapply Qle_trans; [|apply Q.le_max_r]. apply IH. now left.
    + apply Q.le_max_l.
    + eapply Qle_trans; [|apply Q.le_max_r]. apply IH. now right.
Qed.

Lemma truediv_finite (a b : Q) : ~ b == 0 -> truediv a b = Finite (a / b).
Proof.
  intros H. unfold truediv.
  destruct (Qeq_bool b 0) eqn:E; [|reflexivity].
  apply Qeq_bool_eq in E. contradiction.
Qed.

Lemma truediv_zero_zero (a b : Q) : a == 0 -> b == 0 -> truediv a b = NaN.
Proof.
  intros Ha Hb. unfold truediv.
  apply Qeq_eq_bool in Ha, Hb. now rewrite Ha, Hb.
Qed.

Lemma unit_interval (v lo hi : Q) :
  lo <= v -> v <= hi -> lo < hi ->
  0 <= (v - lo) / (hi - lo) <= 1.
Proof.
  intros H1 H2 H3.
  assert (Hd : 0 < hi - lo) by lra.
  split.
  - apply Qle_shift_div_l; [exact Hd | lra].
  - apply Qle_shift_div_r; [exact Hd | lra].
Qed.

End Normalisation.

(** The normalised column, row by row, when the column has two different
    values: every entry is finite and in the unit interval, with the rows
    of the minimum at 0 and the rows of the maximum at 1. *)
Lemma normalize_column_spread (col : list Q) :
  (exists u v, In u col /\ In v col /\ ~ (u == v)%Q) ->
  exists lo hi,
    In lo col /\ In hi col /\ (lo < hi)%Q /\
    (forall v, In v col -> (lo <= v <= hi)%Q) /\
    forall i v, nth_error col i = Some v ->
      exists q, nth_error (normalize_column col) i = Some (Finite q) /\
                (0 <= q <= 1)%Q /\
                ((v == lo)%Q -> (q == 0)%Q) /\
                ((v == hi)%Q -> (q == 1)%Q).
Proof.
  intros (u & v & Hu & Hv & Huv).
  destruct col as [|x r]; [destruct Hu|].
  exists (column_min x r), (column_max x r).
  assert (Hlo := column_min_le x r). assert (Hhi := column_max_ge x r).
  assert (Hlt : (column_min x r < column_max x r)%Q).
  { destruct (Qlt_le_dec (column_min x r) (column_max x r)) as [L|L]; [exact L|].
    exfalso. apply Huv.
    pose proof (Hlo u Hu). pose proof (Hhi u Hu).
    pose proof (Hlo v Hv). pose proof (Hhi v Hv). lra. }
  split; [apply column_min_In|]. split; [apply column_max_In|].
  split; [exact Hlt|]. split; [intros w Hw; split; auto|].
  intros i w Hi.
  assert (Hw : In w (x :: r)) by (eapply nth_error_In; exact Hi).
  exists ((w - column_min x r) / (column_max x r - column_min x r))%Q.
  split.
  - unfold normalize_column.
    rewrite nth_error_map, Hi. simpl. f_equal.
    apply truediv_finite. lra.
  - split; [apply unit_interval; auto|].
    split; intros E.
    + rewrite E. field. lra.
    + rewrite E. field. lra.
Qed.

(** The degenerate column: all rows equal, so the divisor [max - min] is
    zero and every row is [0/0]. *)
Lemma normalize_column_flat (col : list Q) :
  col <> [] ->
  (forall u v, In u col -> In v col -> (u == v)%Q) ->
  exists lo hi,
    In lo col /\ In hi col /\ (hi - lo == 0)%Q /\
    forall i v, nth_error col i = Some v ->
      nth_error (normalize_column col) i = Some (truediv (v - lo) (hi - lo)) /\
      truediv (v - lo) (hi - lo) = NaN.
Proof.
  intros Hne Hflat.
  destruct col as [|x r]; [contradiction|].
  exists (column_min x r), (column_max x r).
  pose proof (column_min_In x r) as Hlo. pose proof (column_max_In x r) as Hhi.
  assert (E : (column_max x r - column_min x r == 0)%Q).
  { pose proof (Hflat _ _ Hhi Hlo). lra. }
  split; [exact Hlo|]. split; [exact Hhi|]. split; [exact E|].
  intros i w Hi.
  assert (Hw : In w (x :: r)) by (eapply nth_error_In; exact Hi).
  split.
  - unfold normalize_column. rewrite nth_error_map, Hi. reflexivity.
  - apply truediv_zero_zero; [|exact E].
    pose proof (Hflat _ _ Hw Hlo). lra.
Qed.

Lemma heatmap_in_country_figure (df : CountryKPI.t) :
  In (on_axes 4 (imshow (map (fun c => map Num (snd c)) (normalized_matrix df))))
     (country_figure df).
Proof.
  unfold country_figure. rewrite !in_app_iff.
  right. right. right. right. now left.
Qed.

(** C4.  Min-max normalisation of the country performance matrix, as drawn
    in the heat map.  Every column of the matrix is normalised on its own.
    If the column holds two different values, every normalised entry is a
    finite number between 0 and 1, the rows holding the column minimum are
    mapped to 0 and the rows holding the maximum to 1.  If all values of a
    non-empty column are equal, the divisor [max - min] is zero: the
    division is a division by zero, which nothing guards, and every entry
    is the NaN that [0/0] gives. *)
Theorem normalization_min_max (df : CountryKPI.t) (name : string) (col : list Q) :
  In (name, col) (performance_matrix df) ->
  In (name, normalize_column col) (normalized_matrix df) /\
  In (on_axes 4 (imshow (map (fun c => map Num (snd c)) (normalized_matrix df))))
     (country_figure df) /\
  ((exists u v, In u col /\ In v col /\ ~ (u == v)%Q) ->
   exists lo hi,
     In lo col /\ In hi col /\ (lo < hi)%Q /\
     (forall v, In v col -> (lo <= v <= hi)%Q) /\
     forall i v, nth_error col i = Some v ->
       exists q, nth_error (normalize_column col) i = Some (Finite q) /\
                 (0 <= q <= 1)%Q /\
                 ((v == lo)%Q -> (q == 0)%Q) /\
                 ((v == hi)%Q -> (q == 1)%Q)) /\
  (col <> [] ->
   (forall u v, In u col -> In v col -> (u == v)%Q) ->
   exists lo hi,
     In lo col /\ In hi col /\ (hi - lo == 0)%Q /\
     forall i v, nth_error col i = Some v ->
       nth_error (normalize_column col) i = Some (truediv (v - lo) (hi - lo)) /\
       truediv (v - lo) (hi - lo) = NaN).
Proof.
  intros Hin. split.
  - unfold normalized_matrix.
    change (name, normalize_column col)
      with ((fun c : string * list Q => (fst c, normalize_column (snd c))) (name, col)).
    now apply in_map.
  - split; [apply heatmap_in_country_figure|].
    split; [apply normalize_column_spread | apply normalize_column_flat].
Qed.

(** ** Descending ranks *)

Section Ranking.

Local Open Scope nat_scope.

Lemma Qltb_lt (a b : Q) : Qltb a b = true <-> (a < b)%Q.
Proof.
  unfold Qltb. rewrite negb_true_iff. split.
  - intros H. apply Qnot_le_lt. intros L.
    apply Qle_bool_iff in L. congruence.
  - intros H. destruct (Qle_bool b a) eqn:E; [|reflexivity].
    apply Qle_bool_iff in E. apply Qlt_not_le in H. contradiction.
Qed.

Lemma count_cons (p : Q -> bool) (x : Q) (l : list Q) :
  count p (x :: l) = (if p x then 1 else 0) + count p l.
Proof. unfold count. simpl. destruct (p x); reflexivity. Qed.

Lemma count_all (l : list Q) : count (fun _ => true) l = length l.
Proof. induction l as [|x l IH]; [reflexivity|]. rewrite count_cons, IH. reflexivity. Qed.

Lemma count_mono (p q : Q -> bool) (l : list Q) :
  (forall x, In x l -> p x = true -> q x = true) ->
  count p l <= count q l.
Proof.
  induction l as [|x l IH]; intros H; [reflexivity|].
  rewrite !count_cons.
  assert (IH' : count p l <= count q l).
  { apply IH. intros y Hy. apply H. now right. }
  destruct (p x) eqn:Px.
  - rewrite (H x (or_introl eq_refl) Px). lia.
  - destruct (q x); lia.
Qed.

Lemma count_mono_strict (p q : Q -> bool) (l : list Q) (y : Q) :
  (forall x, In x l -> p x = true -> q x = true) ->
  In y l -> p y = false -> q y = true ->
  count p l < count q l.
Proof.
  induction l as [|x l IH]; intros H Hy Py Qy; [destruct Hy|].
  rewrite !count_cons.
  assert (Hl : forall z, In z l -> p z = true -> q z = true).
  { intros z Hz. apply H. now right. }
  destruct Hy as [->|Hy].
  - rewrite Py, Qy. pose proof (count_mono p q l Hl). lia.
  - specialize (IH Hl Hy Py Qy).
    destruct (p x) eqn:Px.
    + rewrite (H x (or_introl eq_refl) Px). lia.
    + destruct (q x); lia.
Qed.

Lemma larger_lt_length (col : list Q) (v : Q) :
  In v col -> larger col v < length col.
Proof.
  intros Hv. rewrite <- count_all. unfold larger.
  apply count_mono_strict with (y := v); auto.
  destruct (Qltb v v) eqn:E; [|reflexivity].
  apply Qltb_lt in E. exfalso. exact (Qlt_irrefl v E).
Qed.

Lemma larger_antitone (col : list Q) (u v : Q) :
  In v col -> (u < v)%Q -> larger col v < larger col u.
Proof.
  intros Hv Huv. unfold larger.
  apply count_mono_strict with (y := v); auto.
  - intros x _ Hx. apply Qltb_lt. apply Qltb_lt in Hx.
    eapply Qlt_trans; eassumption.
  - destruct (Qltb v v) eqn:E; [|reflexivity].
    apply Qltb_lt in E. exfalso. exact (Qlt_irrefl v E).
  - now apply Qltb_lt.
Qed.

Lemma larger_injective (col : list Q) (u v : Q) :
  In u col -> In v col -> larger col u = larger col v -> (u == v)%Q.
Proof.
  intros Hu Hv E.
  destruct (Q_dec u v) as [[L|L]|L]; [| |exact L]; exfalso.
  - pose proof (larger_antitone col u v Hv L). lia.
  - pose proof (larger_antitone col v u Hu L). lia.
Qed.

Lemma tied_not_InA (l : list Q) (v : Q) :
  ~ InA Qeq v l -> count (fun u => Qeq_bool u v) l = 0.
Proof.
  induction l as [|x l IH]; intros H; [reflexivity|].
  rewrite count_cons.
  destruct (Qeq_bool x v) eqn:E.
  - exfalso. apply H. left. apply Qeq_bool_eq in E. now symmetry.
  - rewrite IH; [reflexivity|]. intros C. apply H. now right.
Qed.

Lemma tied_NoDupA (l : list Q) (v : Q) :
  NoDupA Qeq l -> InA Qeq v l -> count (fun u => Qeq_bool u v) l = 1.
Proof.
  induction 1 as [|x l Hx Hnd IH]; intros Hv; [inversion Hv|].
  rewrite count_cons.
  destruct (Qeq_bool x v) eqn:E.
  - apply Qeq_bool_eq in E.
    rewrite tied_not_InA; [reflexivity|].
    intros C. apply Hx. rewrite E. exact C.
  - inversion Hv as [? ? Hvx|? ? Hvl]; subst.
    + apply Qeq_bool_neq in E. exfalso. apply E. now symmetry.
    + now rewrite IH.
Qed.

Lemma tied_positive (col : list Q) (v : Q) : In v col -> 1 <= tied col v.
Proof.
  unfold tied. induction col as [|x l IH]; intros H; [destruct H|].
  rewrite count_cons. destruct H as [->|H].
  - rewrite (Qeq_eq_bool v v (Qeq_refl v)). lia.
  - specialize (IH H). lia.
Qed.

Lemma larger_NoDup (col l : list Q) :
  NoDupA Qeq l -> incl l col -> List.NoDup (map (larger col) l).
Proof.
  induction 1 as [|x l Hx Hnd IH]; intros Hincl; [constructor|].
  simpl. constructor.
  - intros C. apply in_map_iff in C. destruct C as (y & E & Hy).
    apply Hx. apply InA_alt. exists y. split; [|exact Hy].
    apply (larger_injective col); auto.
    + apply Hincl. now left.
    + apply Hincl. now right.
  - apply IH. intros y Hy. apply Hincl. now right.
Qed.

Lemma larger_permutation (col : list Q) :
  NoDupA Qeq col -> Permutation (map (larger col) col) (seq 0 (length col)).
Proof.
  intros Hnd. apply NoDup_Permutation_bis.
  - apply larger_NoDup; [exact Hnd | apply incl_refl].
  - rewrite length_seq, length_map. reflexivity.
  - intros k Hk. apply in_map_iff in Hk. destruct Hk as (v & <- & Hv).
    apply in_seq. pose proof (larger_lt_length col v Hv). lia.
Qed.

End Ranking.

Lemma places_sum (g e : nat) :
  (Qsum (places g e) ==
   inject_Z (Z.of_nat e) * inject_Z (Z.of_nat g)
   + inject_Z (Z.of_nat e) * (inject_Z (Z.of_nat e) + 1) / 2)%Q.
Proof.
  revert g. induction e as [|e IH]; intros g.
  - unfold places; simpl. field.
  - unfold places in *. simpl seq. simpl map. simpl Qsum.
    change (fold_right Qplus 0%Q
              (map (fun k => inject_Z (Z.of_nat k)) (seq (S (S g)) e)))
      with (Qsum (map (fun k => inject_Z (Z.of_nat k)) (seq (S (S g)) e))).
    rewrite (IH (S g)).
    rewrite !Nat2Z.inj_succ. unfold Z.succ. rewrite !inject_Z_plus.
    change (inject_Z 1) with 1%Q. field.
Qed.

Lemma rank_descending_nth (col : list Q) (i : nat) (v : Q) :
  nth_error col i = Some v ->
  nth_error (rank_descending col) i =
  Some (Qsum (places (larger col v) (tied col v))
        / inject_Z (Z.of_nat (tied col v)))%Q.
Proof.
  intros H. unfold rank_descending. rewrite nth_error_map, H. reflexivity.
Qed.

Lemma rank_average_value (g e : nat) :
  (1 <= e)%nat ->
  (Qsum (places g e) / inject_Z (Z.of_nat e) ==
   inject_Z (Z.of_nat g) + (inject_Z (Z.of_nat e) + 1) / 2)%Q.
Proof.
  intros He. rewrite places_sum.
  assert (Hne : ~ (inject_Z (Z.of_nat e) == 0)%Q).
  { intros C. unfold Qeq in C. simpl in C. lia. }
  field. exact Hne.
Qed.

Lemma count_ext (p q : Q -> bool) (l : list Q) :
  (forall x, p x = q x) -> count p l = count q l.
Proof.
  intros H. induction l as [|x l IH]; [reflexivity|].
  rewrite !count_cons, H, IH. reflexivity.
Qed.

Lemma larger_tied_compat (col : list Q) (u v : Q) :
  (u == v)%Q -> larger col u = larger col v /\ tied col u = tied col v.
Proof.
  intros E. split; apply count_ext; intros x.
  - unfold Qltb. now rewrite E.
  - now rewrite E.
Qed.

Lemma map_eqlistA (f g : Q -> Q) (l : list Q) :
  (forall x, In x l -> (f x == g x)%Q) -> eqlistA Qeq (map f l) (map g l).
Proof.
  induction l as [|x l IH]; intros H; simpl; constructor.
  - apply H. now left.
  - apply IH. intros y Hy. apply H. now right.
Qed.

(** Without ties the ranks are the numbers 1..N in some order. *)
Lemma rank_descending_permutation (col : list Q) :
  NoDupA Qeq col ->
  PermutationA Qeq (rank_descending col) (places 0 (length col)).
Proof.
  intros Hnd.
  apply permA_trans
    with (map (fun v => inject_Z (Z.of_nat (S (larger col v)))) col).
  - apply eqlistA_PermutationA. unfold rank_descending.
    apply map_eqlistA. intros v Hv. cbv zeta.
    assert (Ht : tied col v = 1%nat).
    { apply tied_NoDupA; [exact Hnd|]. apply InA_alt. exists v. split; [reflexivity|exact Hv]. }
    rewrite Ht. unfold places. simpl. field.
  - apply Permutation_PermutationA; [exact Q_Setoid|].
    unfold places. rewrite <- seq_shift, map_map.
    rewrite <- (map_map (larger col) (fun k => inject_Z (Z.of_nat (S k)))).
    apply Permutation_map. now apply larger_permutation.
Qed.

Ltac place_head :=
  lazymatch goal with
  | |- Permutation [] [] => apply perm_nil
  | |- Permutation (?a :: _) ?r =>
      let rec go pre post :=
        lazymatch post with
        | a :: ?t => apply (Permutation_cons_app pre t a); simpl app
        | ?b :: ?t => go constr:(pre ++ [b]) t
        end in
      go constr:(@nil Q) r
  end.

(** The three columns that the program ranks have no ties. *)
Lemma sample_rankings_permutation (name : string) (rk : list Q) :
  In (name, rk) (rankings sample_genre_performance) ->
  Permutation rk (places 0 7).
Proof.
  intros H. vm_compute in H.
  destruct H as [H|[H|[H|[]]]]; inversion H; subst; vm_compute;
    repeat place_head.
Qed.

(** C5.  Descending ranks of the genre metrics.  Every column of the
    metrics table is ranked on its own.  A value with [g] strictly larger
    values and a group of [e] values equal to it would take the places
    [g+1 .. g+e] of the descending order; its rank is the average of those
    places, [g + (e+1)/2], and equal values get one rank.  When the column
    has no duplicate value the ranks are a permutation of 1..N; this is the
    case for each of the three columns of the table that the program
    builds, whose ranks are a permutation of 1..7. *)
Theorem rank_permutation_with_ties
  (df : GenrePerformance.t) (name : string) (col : list Q) :
  In (name, col) (genre_metrics df) ->
  In (name, rank_descending col) (rankings df) /\
  (NoDupA Qeq col ->
   PermutationA Qeq (rank_descending col) (places 0 (length col))) /\
  (forall i v, nth_error col i = Some v ->
     (1 <= tied col v)%nat /\
     exists r, nth_error (rank_descending col) i = Some r /\
       r = (Qsum (places (larger col v) (tied col v))
            / inject_Z (Z.of_nat (tied col v)))%Q /\
       (r == inject_Z (Z.of_nat (larger col v))
             + (inject_Z (Z.of_nat (tied col v)) + 1) / 2)%Q) /\
  (forall i j u v,
     nth_error col i = Some u -> nth_error col j = Some v -> (u == v)%Q ->
     nth_error (rank_descending col) i = nth_error (rank_descending col) j) /\
  (df = sample_genre_performance ->
   Permutation (rank_descending col) (places 0 7)).
Proof.
  intros Hin.
  assert (Hrk : In (name, rank_descending col) (rankings df)).
  { unfold rankings.
    change (name, rank_descending col)
      with ((fun c : string * list Q => (fst c, rank_descending (snd c))) (name, col)).
    now apply in_map. }
  split; [exact Hrk|].
  split; [apply rank_descending_permutation|].
  split; [|split].
  - intros i v Hi.
    assert (Hv : In v col) by (eapply nth_error_In; exact Hi).
    pose proof (tied_positive col v Hv) as Ht.
    split; [exact Ht|].
    eexists. split; [apply rank_descending_nth; exact Hi|].
    split; [reflexivity|]. now apply rank_average_value.
  - intros i j u v Hi Hj E.
    rewrite (rank_descending_nth col i u Hi), (rank_descending_nth col j v Hj).
    destruct (larger_tied_compat col u v E) as [-> ->]. reflexivity.
  - intros ->. eapply sample_rankings_permutation. exact Hrk.
Qed.

(** ** Trend lines *)

Section LeastSquares.

Local Open Scope Q_scope.

Lemma card_cons (p : Q * Q) (l : list (Q * Q)) : card (p :: l) == card l + 1.
Proof.
  unfold card. cbn [length]. rewrite Nat2Z.inj_succ. unfold Z.succ.
  rewrite inject_Z_plus. reflexivity.
Qed.

Lemma squares_expand (a b : Q) (l : list (Q * Q)) :
  Qsum (map (fun p => (a * fst p + b - snd p) * (a * fst p + b - snd p)) l) ==
  a * a * Sxx l + 2 * a * b * Sx l + card l * b * b
  - 2 * a * Sxy l - 2 * b * Sy l + Syy l.
Proof.
  induction l as [|p l IH].
  - unfold Sxx, Sx, Sxy, Sy, Syy, card. simpl. ring.
  - rewrite card_cons.
    unfold Sxx, Sx, Sxy, Sy, Syy in *. cbn [map Qsum fold_right] in *.
    fold (Qsum (map (fun p => (a * fst p + b - snd p) * (a * fst p + b - snd p)) l)).
    rewrite IH.
    fold (Qsum (map (fun p => fst p * fst p) l)).
    fold (Qsum (map fst l)). fold (Qsum (map snd l)).
    fold (Qsum (map (fun p => fst p * snd p) l)).
    fold (Qsum (map (fun p => snd p * snd p) l)).
    ring.
Qed.

Lemma shift_squares_nonneg (c d : Q) (l : list (Q * Q)) :
  0 <= c * c * Sxx l + 2 * c * d * Sx l + card l * d * d.
Proof.
  induction l as [|p l IH].
  - change (card []) with 0. unfold Sxx, Sx. simpl. lra.
  - rewrite card_cons.
    unfold Sxx, Sx in *. cbn [map Qsum fold_right] in *.
    fold (Qsum (map (fun p => fst p * fst p) l)) in *.
    fold (Qsum (map fst l)) in *.
    assert (H : 0 <= (c * fst p + d) * (c * fst p + d)).
    { destruct (Qlt_le_dec (c * fst p + d) 0) as [L|L]; nra. }
    nra.
Qed.

Lemma combine_sums (x y : list Q) :
  length x = length y ->
  Qsum x = Sx (combine x y) /\ Qsum y = Sy (combine x y) /\
  Qdot x x = Sxx (combine x y) /\ Qdot x y = Sxy (combine x y) /\
  inject_Z (Z.of_nat (length x)) = card (combine x y).
Proof.
  revert y. induction x as [|u x IH]; intros [|v y] H; try discriminate.
  - repeat split; reflexivity.
  - injection H as H. destruct (IH y H) as (E1 & E2 & E3 & E4 & E5).
    unfold Sx, Sy, Sxx, Sxy, Qdot, card, Qsum in *.
    cbn [combine map fold_right fst snd] in *.
    rewrite E1, E2, E3.
    repeat split; try reflexivity.
    cbn [length]. rewrite length_combine, <- H, Nat.min_id. reflexivity.
Qed.

(** The solution of the normal equations has the least sum of squared
    residuals among all lines. *)
Lemma normal_equations_minimum (l : list (Q * Q)) (a b : Q) :
  ~ card l == 0 ->
  ~ card l * Sxx l - Sx l * Sx l == 0 ->
  Qsum (map (fun p =>
               ((card l * Sxy l - Sx l * Sy l) / (card l * Sxx l - Sx l * Sx l)
                * fst p
                + (Sy l - (card l * Sxy l - Sx l * Sy l)
                          / (card l * Sxx l - Sx l * Sx l) * Sx l) / card l
                - snd p)
               * ((card l * Sxy l - Sx l * Sy l) / (card l * Sxx l - Sx l * Sx l)
                  * fst p
                  + (Sy l - (card l * Sxy l - Sx l * Sy l)
                            / (card l * Sxx l - Sx l * Sx l) * Sx l) / card l
                  - snd p)) l)
  <= Qsum (map (fun p => (a * fst p + b - snd p) * (a * fst p + b - snd p)) l).
Proof.
  intros Hn Hd.
  rewrite !squares_expand.
  set (n := card l) in *. set (sx := Sx l) in *. set (sy := Sy l) in *.
  set (sxx := Sxx l) in *. set (sxy := Sxy l) in *. set (syy := Syy l).
  set (a0 := (n * sxy - sx * sy) / (n * sxx - sx * sx)).
  set (b0 := (sy - a0 * sx) / n).
  pose proof (shift_squares_nonneg (a - a0) (b - b0) l) as Hs.
  fold n sx sxx in Hs.
  assert (E : a * a * sxx + 2 * a * b * sx + n * b * b
              - 2 * a * sxy - 2 * b * sy + syy
              - (a0 * a0 * sxx + 2 * a0 * b0 * sx + n * b0 * b0
                 - 2 * a0 * sxy - 2 * b0 * sy + syy)
              == (a - a0) * (a - a0) * sxx + 2 * (a - a0) * (b - b0) * sx
                 + n * (b - b0) * (b - b0)).
  { unfold b0, a0. field. split; assumption. }
  lra.
Qed.

End LeastSquares.

Lemma polyfit1_Fit (x y : list Q) (a0 b0 : Q) :
  polyfit1 x y = Fit a0 b0 ->
  length x = length y /\
  ~ (card (combine x y) == 0)%Q /\
  ~ (card (combine x y) * Sxx (combine x y)
     - Sx (combine x y) * Sx (combine x y) == 0)%Q /\
  a0 = ((card (combine x y) * Sxy (combine x y)
         - Sx (combine x y) * Sy (combine x y))
        / (card (combine x y) * Sxx (combine x y)
           - Sx (combine x y) * Sx (combine x y)))%Q /\
  b0 = ((Sy (combine x y) - a0 * Sx (combine x y)) / card (combine x y))%Q.
Proof.
  unfold polyfit1, fit_denominator.
  destruct (Nat.eqb (length x) (length y)) eqn:El; [|discriminate].
  apply Nat.eqb_eq in El. cbn [negb].
  destruct (Nat.eqb (length x) 0) eqn:E0; [discriminate|].
  apply Nat.eqb_neq in E0.
  destruct (combine_sums x y El) as (E1 & E2 & E3 & E4 & E5).
  rewrite E1, E2, E3, E4, E5.
  destruct (Qeq_bool _ 0) eqn:Ed; [discriminate|].
  apply Qeq_bool_neq in Ed.
  intros H. injection H as Ha Hb.
  split; [exact El|]. split.
  - rewrite <- E5. intros C. unfold Qeq in C. simpl in C. lia.
  - split; [exact Ed|]. split; [now symmetry|].
    rewrite <- Hb, Ha. reflexivity.
Qed.

(** [np.polyfit(x, y, 1)] returns the coefficients of the line with the
    least sum of squared residuals against the points [(x_i, y_i)]. *)
Lemma polyfit1_least_squares (x y : list Q) (a0 b0 : Q) :
  polyfit1 x y = Fit a0 b0 ->
  forall a b, (residuals a0 b0 x y <= residuals a b x y)%Q.
Proof.
  intros H a b.
  destruct (polyfit1_Fit x y a0 b0 H) as (_ & Hn & Hd & Ha & Hb).
  unfold residuals. rewrite Hb, Ha.
  apply normal_equations_minimum; assumption.
Qed.

Lemma length_range (n : nat) : length (range n) = n.
Proof. unfold range. now rewrite length_map, length_seq. Qed.

(** Twenty-four evenly spaced positions never make the system rank
    deficient, whatever the data. *)
Lemma rentals_trend_defined (df : MonthlyTrend.t) :
  MonthlyTrend.len df = 24%nat ->
  length (MonthlyTrend.rentals df) = 24%nat ->
  exists a b, rentals_trend df = Fit a b.
Proof.
  intros Hn Hr. unfold rentals_trend, polyfit1.
  rewrite Hn, length_range, length_map, Hr. cbn [Nat.eqb negb].
  replace (Qeq_bool (fit_denominator (range 24)) 0) with false
    by (vm_compute; reflexivity).
  eexists. eexists. reflexivity.
Qed.

Lemma genre_trend_defined :
  exists a b, genre_trend sample_genre_performance = Fit a b.
Proof. eexists. eexists. vm_compute. reflexivity. Qed.

(** C7 as stated fails for the genre figure: its trend line is fitted
    against the prices, and the coefficients so obtained do not minimise
    the squared residuals of a line over the positions 0..6 against the
    ratings. *)
Lemma genre_trend_not_over_positions :
  ~ (forall a b,
       genre_trend sample_genre_performance = Fit a b ->
       forall a' b',
         (residuals a b (range 7) (GenrePerformance.avg_rating sample_genre_performance)
          <= residuals a' b' (range 7)
               (GenrePerformance.avg_rating sample_genre_performance))%Q).
Proof.
  intros H.
  assert (K : match genre_trend sample_genre_performance with
              | Fit a b =>
                  (residuals (-0.1) 7.5 (range 7)
                     (GenrePerformance.avg_rating sample_genre_performance)
                   < residuals a b (range 7)
                       (GenrePerformance.avg_rating sample_genre_performance))%Q
              | _ => False
              end)
    by (vm_compute; reflexivity).
  destruct (genre_trend sample_genre_performance) as [a b| |] eqn:E;
    [|contradiction..].
  apply (Qlt_not_le _ _ K). apply (H a b eq_refl).
Qed.

(** C7 (amended).  Each of the two trend lines is a degree-1 least-squares
    fit: the coefficients that [np.polyfit] returns minimise the sum of
    squared residuals of a line against the data.  In the temporal figure
    the abscissae are the evenly spaced positions 0..N-1 and the data the
    monthly rentals; for a table of 24 months the fit always exists.  In the
    genre figure the abscissae are the average prices of the genres, not
    positions, and the data the average ratings. *)
Theorem trend_lines_least_squares :
  (forall (df : MonthlyTrend.t) (a b : Q),
     rentals_trend df = Fit a b ->
     trend_values (rentals_trend df) (range (MonthlyTrend.len df))
     = inr (poly1d a b (range (MonthlyTrend.len df))) /\
     forall a' b',
       (residuals a b (range (MonthlyTrend.len df))
                  (map of_int (MonthlyTrend.rentals df))
        <= residuals a' b' (range (MonthlyTrend.len df))
                     (map of_int (MonthlyTrend.rentals df)))%Q) /\
  (forall (df : MonthlyTrend.t),
     MonthlyTrend.len df = 24%nat ->
     length (MonthlyTrend.rentals df) = 24%nat ->
     exists a b, rentals_trend df = Fit a b) /\
  (forall (df : GenrePerformance.t) (a b : Q),
     genre_trend df = Fit a b ->
     trend_values (genre_trend df) (GenrePerformance.avg_price df)
     = inr (poly1d a b (GenrePerformance.avg_price df)) /\
     forall a' b',
       (residuals a b (GenrePerformance.avg_price df)
                  (GenrePerformance.avg_rating df)
        <= residuals a' b' (GenrePerformance.avg_price df)
                     (GenrePerformance.avg_rating df))%Q) /\
  (exists a b, genre_trend sample_genre_performance = Fit a b).
Proof.
  split; [|split; [|split]].
  - intros df a b E. split; [rewrite E; reflexivity|].
    now apply polyfit1_least_squares.
  - exact rentals_trend_defined.
  - intros df a b E. split; [rewrite E; reflexivity|].
    now apply polyfit1_least_squares.
  - exact genre_trend_defined.
Qed.

(** ** The run *)

Section Run.

Context {rng_state : Type}.
Variable mt19937_seed : Z -> rng_state.
Variable legacy_gauss : rng_state -> Q * rng_state.
Variable style_available : list string.

Implicit Types (s : state rng_state) (v : MovieNowVisualizer).

Lemma bind_Ok {A B : Type} (c : M rng_state A) (k : A -> M rng_state B) s a s' :
  c s = Ok a s' -> (c ≫= k) s = k a s'.
Proof. intros H. unfold mbind, M_bind. now rewrite H. Qed.

Lemma bind_Raised {A B : Type} (c : M rng_state A) (k : A -> M rng_state B) s e s' :
  c s = Raised e s' -> (c ≫= k) s = Raised e s'.
Proof. intros H. unfold mbind, M_bind. now rewrite H. Qed.

(** Each generator either stops with an exception, leaving the state as it
    found it, or writes its one artifact. *)
Lemma run_generator_eq (g : generator) s :
  run_generator g s =
  match generator_result g (visualizer s) (dirs s) with
  | inl e => Raised e s
  | inr a => Ok tt (after_generator g a s)
  end.
Proof.
  destruct g; unfold run_generator, generator_result, generator_artifact;
    unfold create_country_performance_dashboard, create_genre_analysis,
      create_customer_segmentation_viz, create_temporal_analysis,
      create_interactive_dashboard;
    unfold mbind, M_bind, attribute, lift, raise, mret, M_ret;
    destruct (visualizer s) as [v|] eqn:Ev; cbn [first_attribute]; try reflexivity.
  all: try (destruct (genre_figure (genre_performance v)) as [e|fig];
            [reflexivity|]).
  all: try (destruct (temporal_figure (monthly_trends v)) as [e|fig];
            [reflexivity|]).
  all: unfold savefig, write_html, open_for_writing, writable, output_path,
         plt_show, print, modify, after_generator.
  all: destruct (negb (String.eqb _ "") && negb (bool_decide (_ ∈ dirs s)));
         [reflexivity|].
  all: destruct (bool_decide (_ ∈ dirs s)); reflexivity.
Qed.

Lemma length_normal_draws (loc scale : Q) (n : nat) (g : rng_state) :
  length (fst (normal_draws legacy_gauss loc scale n g)) = n.
Proof.
  revert g. induction n as [|n IH]; intros g; [reflexivity|].
  cbn [normal_draws]. destruct (legacy_gauss g) as [z g1].
  specialize (IH g1).
  destruct (normal_draws legacy_gauss loc scale n g1) as [r g2].
  cbn [fst length] in *. now rewrite IH.
Qed.

Lemma setup_sample_data_eq s :
  setup_sample_data mt19937_seed legacy_gauss s =
  Ok tt (set_visualizer (sample_visualizer mt19937_seed legacy_gauss)
           (set_np_random (snd (seeded_columns mt19937_seed legacy_gauss)) s)).
Proof.
  unfold setup_sample_data, sample_visualizer, seeded_columns.
  unfold mbind, M_bind, np_random_seed, np_random_normal, modify.
  cbn [np_random set_np_random].
  destruct (normal_draws legacy_gauss 800 150 (length months) (mt19937_seed 42))
    as [r1 g1].
  cbn [np_random set_np_random].
  destruct (normal_draws legacy_gauss 5600 1050 (length months) g1) as [r2 g2].
  cbn [np_random set_np_random].
  destruct (normal_draws legacy_gauss 45 12 (length months) g2) as [r3 g3].
  reflexivity.
Qed.

Lemma files_after_generator (g : generator) (a : artifact) s :
  files (after_generator g a s) = <[output_path g := a]> (files s).
Proof. destruct a; reflexivity. Qed.

Lemma frame_after_generator (g : generator) (a : artifact) s :
  visualizer (after_generator g a s) = visualizer s /\
  dirs (after_generator g a s) = dirs s /\
  np_random (after_generator g a s) = np_random s.
Proof. destruct a; repeat split; reflexivity. Qed.

Lemma run_generator_frame (g : generator) s :
  visualizer (final (run_generator g s)) = visualizer s /\
  dirs (final (run_generator g s)) = dirs s /\
  np_random (final (run_generator g s)) = np_random s.
Proof.
  rewrite run_generator_eq.
  destruct (generator_result g (visualizer s) (dirs s)) as [e|a]; cbn [final].
  - repeat split; reflexivity.
  - apply frame_after_generator.
Qed.

Lemma output_path_injective (g h : generator) :
  output_path g = output_path h -> g = h.
Proof. destruct g, h; intros E; try reflexivity; discriminate E. Qed.

(** C8.  Every report generator leaves the five tables as it found them,
    and what a generator does is the same whether or not another generator
    (or the same one) has run before it: it succeeds or fails alike, and
    the file at its output path holds the same artifact afterwards. *)
Theorem generators_only_read (g h : generator) (s : state rng_state) :
  visualizer (final (run_generator g s)) = visualizer s /\
  succeeded (run_generator g (final (run_generator h s)))
  = succeeded (run_generator g s) /\
  files (final (run_generator g (final (run_generator h s)))) !! output_path g
  = files (final (run_generator g s)) !! output_path g.
Proof.
  split; [apply run_generator_frame|].
  destruct (run_generator_frame h s) as (Hv & Hd & _).
  rewrite (run_generator_eq g (final (run_generator h s))), Hv, Hd.
  rewrite (run_generator_eq g s).
  destruct (generator_result g (visualizer s) (dirs s)) as [e|a] eqn:Eg;
    cbn [final succeeded].
  - split; [reflexivity|].
    rewrite (run_generator_eq h s).
    destruct (generator_result h (visualizer s) (dirs s)) as [e'|a'] eqn:Eh;
      cbn [final]; [reflexivity|].
    rewrite files_after_generator. apply lookup_insert_ne.
    intros E. apply output_path_injective in E. subst h. congruence.
  - split; [reflexivity|].
    rewrite !files_after_generator, !lookup_insert_eq. reflexivity.
Qed.

Lemma generator_artifact_actor (g : generator) (a : ActorAnalysis.t) v :
  generator_artifact g (with_actor_analysis a v) = generator_artifact g v.
Proof. destruct g; reflexivity. Qed.

(** C9.  No generator reads the actor table: with any two actor tables in
    the visualizer, a generator builds the same artifact, succeeds or fails
    alike, and leaves the same files, the same figures on screen, the same
    console output and the same directories. *)
Theorem actor_analysis_unused
  (g : generator) (a1 a2 : ActorAnalysis.t) (v : MovieNowVisualizer)
  (s : state rng_state) :
  generator_artifact g (with_actor_analysis a1 v)
  = generator_artifact g (with_actor_analysis a2 v) /\
  succeeded (run_generator g (set_visualizer (with_actor_analysis a1 v) s))
  = succeeded (run_generator g (set_visualizer (with_actor_analysis a2 v) s)) /\
  files (final (run_generator g (set_visualizer (with_actor_analysis a1 v) s)))
  = files (final (run_generator g (set_visualizer (with_actor_analysis a2 v) s))) /\
  shown (final (run_generator g (set_visualizer (with_actor_analysis a1 v) s)))
  = shown (final (run_generator g (set_visualizer (with_actor_analysis a2 v) s))) /\
  stdout (final (run_generator g (set_visualizer (with_actor_analysis a1 v) s)))
  = stdout (final (run_generator g (set_visualizer (with_actor_analysis a2 v) s))) /\
  dirs (final (run_generator g (set_visualizer (with_actor_analysis a1 v) s)))
  = dirs (final (run_generator g (set_visualizer (with_actor_analysis a2 v) s))).
Proof.
  split; [now rewrite !generator_artifact_actor|].
  rewrite !run_generator_eq. cbn [visualizer dirs set_visualizer].
  unfold generator_result. rewrite !generator_artifact_actor.
  destruct (generator_artifact g v) as [e|a]; [repeat split; reflexivity|].
  destruct (writable (output_path g) (dirs s)); [|repeat split; reflexivity].
  destruct a; repeat split; reflexivity.
Qed.

(** *** Running the script *)

Lemma string_app_cons (x : ascii) (a b : string) :
  (String x a ++ b)%string = String x (a ++ b)%string.
Proof. reflexivity. Qed.

Lemma string_app_assoc (a b c : string) :
  ((a ++ b) ++ c)%string = (a ++ b ++ c)%string.
Proof.
  induction a as [|x a IH]; [reflexivity|].
  rewrite !string_app_cons. f_equal. exact IH.
Qed.

Lemma string_app_nil_r (a : string) : (a ++ "")%string = a.
Proof.
  induction a as [|x a IH]; [reflexivity|].
  rewrite string_app_cons. f_equal. exact IH.
Qed.

(** Appending [out] to the console and replacing the style list. *)
Lemma select_style_ok s :
  exists sty out,
    select_style style_available s =
    Ok tt (mkstate (visualizer s) (np_random s) sty (dirs s) (files s) (shown s)
                   (stdout s ++ out)%string).
Proof.
  unfold select_style, try_except_OSError, style_use.
  cbn [String.eqb Ascii.eqb Bool.eqb orb].
  destruct (bool_decide ("seaborn-v0_8" ∈ style_available)).
  { exists (rc_style s ++ ["seaborn-v0_8"]), "".
    unfold add_rc_style. now rewrite string_app_nil_r. }
  destruct (bool_decide ("seaborn" ∈ style_available)).
  { exists (rc_style s ++ ["seaborn"]), "".
    unfold add_rc_style. now rewrite string_app_nil_r. }
  eexists. eexists. reflexivity.
Qed.

Lemma print_each_ok (l : list string) s :
  exists out,
    print_each l s =
    Ok tt (mkstate (visualizer s) (np_random s) (rc_style s) (dirs s) (files s)
                   (shown s) (stdout s ++ out)%string).
Proof.
  revert s. induction l as [|t l IH]; intros s.
  - exists "". cbn. rewrite string_app_nil_r. now destruct s.
  - cbn [print_each]. unfold mbind, M_bind, print, modify.
    destruct (IH (add_stdout ("  - " ++ t) s)) as (out & E).
    rewrite E. cbn [add_stdout visualizer np_random rc_style dirs files shown stdout].
    eexists. rewrite string_app_assoc. reflexivity.
Qed.

Lemma create_output_directory_ok s :
  "visualizations" ∉ dom (files s) ->
  create_output_directory s = Ok tt (add_dir "visualizations" s).
Proof.
  intros Hf. unfold create_output_directory, os_makedirs, os_path_exists.
  rewrite (bool_decide_eq_false_2 _ Hf), orb_false_r.
  destruct (bool_decide ("visualizations" ∈ dirs s)) eqn:E; cbn [negb].
  - apply bool_decide_eq_true_1 in E. f_equal.
    destruct s as [v g r d f sh out]. unfold add_dir. cbn in *.
    f_equal. set_solver.
  - reflexivity.
Qed.

Lemma writable_output (p : string) (d : gset string) :
  In p output_paths -> p ∉ d ->
  writable p ({["visualizations"]} ∪ d) = true.
Proof.
  intros Hp Hd.
  assert (E : dirname p = "visualizations" /\ p <> "visualizations").
  { unfold output_paths in Hp. cbn [In] in Hp.
    destruct Hp as [<-|[<-|[<-|[<-|[<-|[]]]]]]; split; (reflexivity || discriminate). }
  destruct E as [E Hne]. unfold writable. rewrite E.
  rewrite (bool_decide_eq_true_2 ("visualizations" ∈ {["visualizations"]} ∪ d))
    by set_solver.
  rewrite (bool_decide_eq_false_2 (p ∈ {["visualizations"]} ∪ d)) by set_solver.
  reflexivity.
Qed.

Lemma seeded_lengths :
  length (fst (fst (fst (seeded_columns mt19937_seed legacy_gauss)))) = 24%nat /\
  length (snd (fst (fst (seeded_columns mt19937_seed legacy_gauss)))) = 24%nat /\
  length (snd (fst (seeded_columns mt19937_seed legacy_gauss))) = 24%nat.
Proof.
  unfold seeded_columns.
  pose proof (length_normal_draws 800 150 (length months) (mt19937_seed 42)) as H1.
  destruct (normal_draws legacy_gauss 800 150 (length months) (mt19937_seed 42))
    as [r1 g1].
  pose proof (length_normal_draws 5600 1050 (length months) g1) as H2.
  destruct (normal_draws legacy_gauss 5600 1050 (length months) g1) as [r2 g2].
  pose proof (length_normal_draws 45 12 (length months) g2) as H3.
  destruct (normal_draws legacy_gauss 45 12 (length months) g2) as [r3 g3].
  cbn [fst snd] in *. auto.
Qed.

Lemma sample_artifacts (g : generator) :
  g <> Interactive ->
  exists fig,
    generator_artifact g (sample_visualizer mt19937_seed legacy_gauss)
    = inr (Png fig).
Proof.
  intros Hg. destruct g; cbn [generator_artifact]; [| | | |contradiction].
  - eexists; reflexivity.
  - change (genre_performance (sample_visualizer mt19937_seed legacy_gauss))
      with sample_genre_performance.
    assert (H : exists fig, genre_figure sample_genre_performance = inr fig)
      by (eexists; vm_compute; reflexivity).
    destruct H as (fig & ->). eexists; reflexivity.
  - eexists; reflexivity.
  - destruct seeded_lengths as (H1 & _ & _).
    destruct (rentals_trend_defined
                (monthly_trends (sample_visualizer mt19937_seed legacy_gauss)))
      as (a & b & E).
    + reflexivity.
    + cbn [monthly_trends sample_visualizer MonthlyTrend.rentals].
      now rewrite length_map.
    + unfold temporal_figure. rewrite E. cbn [trend_values]. eexists; reflexivity.
Qed.

Lemma run_generator_ok (g : generator) s v (a : artifact) :
  visualizer s = Some v ->
  generator_artifact g v = inr a ->
  writable (output_path g) (dirs s) = true ->
  run_generator g s = Ok tt (after_generator g a s).
Proof.
  intros Hv Ha Hw. rewrite run_generator_eq. unfold generator_result.
  now rewrite Hv, Ha, Hw.
Qed.

Lemma create_interactive_dashboard_ok s v :
  visualizer s = Some v ->
  writable (output_path Interactive) (dirs s) = true ->
  create_interactive_dashboard s =
  Ok (interactive_figure v)
     (after_generator Interactive (Html (interactive_figure v)) s).
Proof.
  intros Hv Hw. unfold create_interactive_dashboard.
  unfold mbind, M_bind, attribute, write_html, open_for_writing, mret, M_ret.
  rewrite Hv. unfold writable, output_path in Hw.
  destruct (negb (String.eqb _ "") && negb (bool_decide (_ ∈ dirs s)));
    [discriminate|].
  destruct (bool_decide (_ ∈ dirs s)); [discriminate|].
  reflexivity.
Qed.

Lemma bind_modify {B : Type} (f : state rng_state -> state rng_state)
  (k : unit -> M rng_state B) s :
  (modify f ≫= k) s = k tt (f s).
Proof. reflexivity. Qed.

Lemma bind_print {B : Type} (t : string) (k : unit -> M rng_state B) s :
  (print t ≫= k) s = k tt (add_stdout t s).
Proof. reflexivity. Qed.

Lemma bind_attribute {A B : Type} (name : string) (get : MovieNowVisualizer -> A)
  (k : A -> M rng_state B) s v :
  visualizer s = Some v ->
  (attribute name get ≫= k) s = k (get v) s.
Proof. intros H. unfold mbind, M_bind, attribute. now rewrite H. Qed.

Ltac step := first [rewrite bind_print | rewrite bind_modify]; cbv beta.

Ltac projections :=
  cbn [visualizer np_random rc_style dirs files shown stdout
       add_stdout add_shown write_file add_dir add_rc_style
       set_visualizer set_np_random after_generator output_path].

Ltac projections_in H :=
  cbn [visualizer np_random rc_style dirs files shown stdout
       add_stdout add_shown write_file add_dir add_rc_style
       set_visualizer set_np_random after_generator output_path] in H.

Lemma generate_all_visualizations_ok s :
  visualizer s = Some (sample_visualizer mt19937_seed legacy_gauss) ->
  (forall p, In p output_paths -> writable p (dirs s) = true) ->
  exists s' a1 a2 a3 a4 a5,
    generate_all_visualizations s = Ok tt s' /\
    visualizer s' = visualizer s /\
    dirs s' = dirs s /\
    files s' =
      <["visualizations/interactive_dashboard.html" := a5]>
        (<["visualizations/temporal_analysis.png" := a4]>
           (<["visualizations/customer_segmentation.png" := a3]>
              (<["visualizations/genre_analysis.png" := a2]>
                 (<["visualizations/country_performance_dashboard.png" := a1]>
                    (files s))))) /\
    stdout s' =
      (stdout s ++ unlines progress_lines ++ unlines saved_files_lines)%string.
Proof.
  intros Hv Hw.
  destruct (sample_artifacts Country) as (f1 & E1); [discriminate|].
  destruct (sample_artifacts Genre) as (f2 & E2); [discriminate|].
  destruct (sample_artifacts Customer) as (f3 & E3); [discriminate|].
  destruct (sample_artifacts Temporal) as (f4 & E4); [discriminate|].
  unfold generate_all_visualizations.
  do 2 step.
  change create_country_performance_dashboard with (run_generator (rng_state:=rng_state) Country).
  erewrite bind_Ok;
    [|eapply run_generator_ok; [projections; exact Hv|exact E1|
        projections; apply Hw; cbn; tauto]].
  step.
  change create_genre_analysis with (run_generator (rng_state:=rng_state) Genre).
  erewrite bind_Ok;
    [|eapply run_generator_ok; [projections; exact Hv|exact E2|
        projections; apply Hw; cbn; tauto]].
  step.
  change create_customer_segmentation_viz
    with (run_generator (rng_state:=rng_state) Customer).
  erewrite bind_Ok;
    [|eapply run_generator_ok; [projections; exact Hv|exact E3|
        projections; apply Hw; cbn; tauto]].
  step.
  change create_temporal_analysis with (run_generator (rng_state:=rng_state) Temporal).
  erewrite bind_Ok;
    [|eapply run_generator_ok; [projections; exact Hv|exact E4|
        projections; apply Hw; cbn; tauto]].
  step.
  erewrite bind_Ok;
    [|eapply create_interactive_dashboard_ok;
        [projections; exact Hv|projections; apply Hw; cbn; tauto]].
  do 6 step. unfold print, modify.
  eexists. exists (Png f1), (Png f2), (Png f3), (Png f4). eexists.
  split; [reflexivity|]. projections.
  split; [reflexivity|]. split; [reflexivity|]. split; [reflexivity|].
  rewrite !string_app_assoc. reflexivity.
Qed.

Lemma check_available_styles_ok s :
  exists out,
    check_available_styles style_available s =
    Ok tt (mkstate (visualizer s) (np_random s) (rc_style s) (dirs s) (files s)
                   (shown s) (stdout s ++ out)%string).
Proof.
  unfold check_available_styles. step.
  destruct (print_each_ok style_available
              (add_stdout "Available matplotlib styles:" s)) as (out & E).
  rewrite E. projections. eexists. rewrite string_app_assoc. reflexivity.
Qed.

Lemma init_ok s :
  "visualizations" ∉ dom (files s) ->
  init mt19937_seed legacy_gauss s =
  Ok tt (add_dir "visualizations"
           (set_visualizer (sample_visualizer mt19937_seed legacy_gauss)
              (set_np_random (snd (seeded_columns mt19937_seed legacy_gauss)) s))).
Proof.
  intros Hf. unfold init.
  erewrite bind_Ok by apply setup_sample_data_eq.
  apply create_output_directory_ok. exact Hf.
Qed.

(** The whole run, from a fresh interpreter in a working directory that is
    clear to write. *)
Lemma main_ok (g : rng_state) (d : gset string) (f : gmap string artifact) :
  clear_to_write d f ->
  exists s' head a1 a2 a3 a4 a5,
    main mt19937_seed legacy_gauss style_available (fresh g d f) = Ok tt s' /\
    visualizer s' = Some (sample_visualizer mt19937_seed legacy_gauss) /\
    dirs s' = {["visualizations"]} ∪ d /\
    files s' =
      <["visualizations/interactive_dashboard.html" := a5]>
        (<["visualizations/temporal_analysis.png" := a4]>
           (<["visualizations/customer_segmentation.png" := a3]>
              (<["visualizations/genre_analysis.png" := a2]>
                 (<["visualizations/country_performance_dashboard.png" := a1]>
                    f)))) /\
    stdout s' =
      (head ++ unlines progress_lines ++ unlines saved_files_lines
            ++ unlines summary_lines)%string.
Proof.
  intros [Hf Hd]. unfold main.
  destruct (select_style_ok (fresh g d f)) as (sty & out & E).
  erewrite bind_Ok by exact E. clear E. unfold fresh. projections.
  do 3 step.
  match goal with
  | |- context [(check_available_styles _ ≫= _) ?s0] =>
      destruct (check_available_styles_ok s0) as (out2 & E)
  end.
  erewrite bind_Ok by exact E. clear E. projections.
  step.
  erewrite bind_Ok by (apply init_ok; projections; exact Hf).
  match goal with
  | |- context [(generate_all_visualizations ≫= _) ?s0] =>
      destruct (generate_all_visualizations_ok s0)
        as (s1 & a1 & a2 & a3 & a4 & a5 & E & Hv & Hdirs & Hfiles & Hout)
  end.
  { reflexivity. }
  { intros p Hp. projections. apply writable_output; auto. }
  erewrite bind_Ok by exact E. clear E.
  projections. projections_in Hv. projections_in Hdirs.
  projections_in Hfiles. projections_in Hout.
  match type of Hout with
  | _ = (?h ++ _)%string => set (head := h) in *
  end.
  do 3 step.
  erewrite bind_attribute by (projections; exact Hv). step.
  erewrite bind_attribute by (projections; exact Hv). step.
  erewrite bind_attribute by (projections; exact Hv). step.
  erewrite bind_attribute by (projections; exact Hv). step.
  unfold print, modify.
  eexists. exists head, a1, a2, a3, a4, a5.
  split; [reflexivity|]. projections.
  split; [exact Hv|]. split; [exact Hdirs|]. split; [exact Hfiles|].
  rewrite Hout, !string_app_assoc.
  apply (f_equal (String.append head)).
  vm_compute. reflexivity.
Qed.

(** *** What no step of the run touches *)

Lemma keeps_bind {A B : Type} (c : M rng_state A) (k : A -> M rng_state B) :
  keeps_tables c -> (forall a, keeps_tables (k a)) -> keeps_tables (c ≫= k).
Proof.
  intros Hc Hk s. unfold mbind, M_bind. specialize (Hc s).
  destruct (c s) as [a s'|e s']; cbn [final] in *; [|exact Hc].
  now rewrite Hk.
Qed.

Lemma keeps_print (t : string) : keeps_tables (rng_state:=rng_state) (print t).
Proof. intros s. reflexivity. Qed.

Lemma keeps_attribute {A : Type} (name : string) (get : MovieNowVisualizer -> A) :
  keeps_tables (rng_state:=rng_state) (attribute name get).
Proof.
  intros s. unfold attribute.
  destruct (visualizer s) eqn:E; cbn [final]; exact E.
Qed.

Lemma keeps_run_generator (g : generator) :
  keeps_tables (rng_state:=rng_state) (run_generator g).
Proof. intros s. apply run_generator_frame. Qed.

Lemma keeps_create_interactive_dashboard :
  keeps_tables (rng_state:=rng_state) create_interactive_dashboard.
Proof.
  intros s. pose proof (keeps_run_generator Interactive s) as H.
  unfold run_generator, mbind, M_bind in H.
  destruct (create_interactive_dashboard s); exact H.
Qed.

Lemma keeps_generate_all_visualizations :
  keeps_tables (rng_state:=rng_state) generate_all_visualizations.
Proof.
  unfold generate_all_visualizations.
  repeat first
    [ exact (keeps_run_generator Country)
    | exact (keeps_run_generator Genre)
    | exact (keeps_run_generator Customer)
    | exact (keeps_run_generator Temporal)
    | apply keeps_create_interactive_dashboard
    | apply keeps_print
    | apply keeps_bind; [|intros ?] ].
Qed.

Lemma create_output_directory_always s :
  exists s', create_output_directory s = Ok tt s' /\ visualizer s' = visualizer s.
Proof.
  unfold create_output_directory, os_makedirs.
  destruct (os_path_exists "visualizations" s); cbn [negb];
    eexists; split; reflexivity.
Qed.

(** Whatever the working directory and the installed styles are, the run
    ends, normally or not, with the same tables in the visualizer. *)
Lemma main_tables s :
  visualizer (final (main mt19937_seed legacy_gauss style_available s))
  = Some (sample_visualizer mt19937_seed legacy_gauss).
Proof.
  unfold main.
  destruct (select_style_ok s) as (sty & out & E).
  erewrite bind_Ok by exact E. clear E.
  do 3 step.
  match goal with
  | |- context [(check_available_styles _ ≫= _) ?s0] =>
      destruct (check_available_styles_ok s0) as (out2 & E)
  end.
  erewrite bind_Ok by exact E. clear E.
  step. unfold init at 1.
  match goal with
  | |- context [((_ ≫= _) ≫= _) ?s0] =>
      destruct (create_output_directory_always
                  (set_visualizer (sample_visualizer mt19937_seed legacy_gauss)
                     (set_np_random (snd (seeded_columns mt19937_seed legacy_gauss))
                        s0))) as (s1 & E & Hv)
  end.
  erewrite bind_Ok;
    [|erewrite bind_Ok by apply setup_sample_data_eq; exact E].
  match goal with
  | |- visualizer (final (?c s1)) = _ =>
      assert (K : keeps_tables c)
  end.
  { repeat first
      [ apply keeps_generate_all_visualizations
      | apply keeps_print
      | apply keeps_attribute
      | apply keeps_bind; [|intros ?] ]. }
  rewrite K, Hv. reflexivity.
Qed.

Lemma nth_error_combine (a b : list Q) (i : nat) (x y : Q) :
  nth_error a i = Some x -> nth_error b i = Some y ->
  nth_error (combine a b) i = Some (x, y).
Proof.
  revert b i. induction a as [|u a IH]; intros [|w b] [|i] Ha Hb;
    try discriminate; cbn in *.
  - congruence.
  - now apply IH.
Qed.

Lemma series_div_nth (a b : list Q) (i : nat) (x y : Q) :
  nth_error a i = Some x -> nth_error b i = Some y ->
  nth_error (series_div a b) i = Some (truediv x y).
Proof.
  intros Ha Hb. unfold series_div.
  rewrite nth_error_map, (nth_error_combine a b i x y Ha Hb). reflexivity.
Qed.

End Run.

(** ** The claims about the run *)

(** C1.  The tables that a run leaves in the visualizer do not depend on
    the interpreter it starts in: with any two initial states (generator
    state, working directory, console) and any two sets of installed
    styles, the dataset builder and the whole script end with the same
    visualizer.  Its MonthlyTrend columns are the draws made right after the
    generator is reseeded with 42, so they are a function of the library
    alone and every run reproduces them. *)
Theorem monthly_trends_reproducible {rng_state : Type}
  (mt19937_seed : Z -> rng_state) (legacy_gauss : rng_state -> Q * rng_state)
  (styles1 styles2 : list string) (s1 s2 : state rng_state) :
  visualizer (final (setup_sample_data mt19937_seed legacy_gauss s1))
  = visualizer (final (setup_sample_data mt19937_seed legacy_gauss s2)) /\
  visualizer (final (main mt19937_seed legacy_gauss styles1 s1))
  = visualizer (final (main mt19937_seed legacy_gauss styles2 s2)) /\
  exists v,
    visualizer (final (main mt19937_seed legacy_gauss styles1 s1)) = Some v /\
    monthly_trends v
    = monthly_trends (sample_visualizer mt19937_seed legacy_gauss) /\
    MonthlyTrend.rentals (monthly_trends v)
    = map astype_int
        (fst (normal_draws legacy_gauss 800 150 24 (mt19937_seed 42))).
Proof.
  split; [now rewrite !setup_sample_data_eq|].
  split; [now rewrite !main_tables|].
  exists (sample_visualizer mt19937_seed legacy_gauss).
  split; [apply main_tables|]. split; [reflexivity|].
  cbn [monthly_trends sample_visualizer MonthlyTrend.rentals].
  unfold seeded_columns. change (length months) with 24%nat.
  destruct (normal_draws legacy_gauss 800 150 24 (mt19937_seed 42)) as [r1 g1].
  destruct (normal_draws legacy_gauss 5600 1050 24 g1) as [r2 g2].
  destruct (normal_draws legacy_gauss 45 12 24 g2) as [r3 g3].
  reflexivity.
Qed.

(** C2.  After the dataset builder has run, CountryKPI has 7 rows,
    GenrePerformance 7, CustomerSegment 4, MonthlyTrend 24 and ActorAnalysis
    6, every column of a table having the length of the table; the 24 rows
    of MonthlyTrend are the months January 2018 to December 2019, one row
    per month. *)
Theorem table_row_counts {rng_state : Type}
  (mt19937_seed : Z -> rng_state) (legacy_gauss : rng_state -> Q * rng_state)
  (s : state rng_state) :
  exists v,
    visualizer (final (setup_sample_data mt19937_seed legacy_gauss s)) = Some v /\
    (CountryKPI.len (country_kpis v) = 7 /\
     length (CountryKPI.total_rentals (country_kpis v)) = 7 /\
     length (CountryKPI.avg_rating (country_kpis v)) = 7 /\
     length (CountryKPI.total_revenue (country_kpis v)) = 7)%nat /\
    (GenrePerformance.len (genre_performance v) = 7 /\
     length (GenrePerformance.avg_rating (genre_performance v)) = 7 /\
     length (GenrePerformance.total_rentals (genre_performance v)) = 7 /\
     length (GenrePerformance.avg_price (genre_performance v)) = 7)%nat /\
    (CustomerSegment.len (customer_segments v) = 4 /\
     length (CustomerSegment.customer_count (customer_segments v)) = 4 /\
     length (CustomerSegment.avg_revenue_per_customer (customer_segments v)) = 4)%nat /\
    (MonthlyTrend.len (monthly_trends v) = 24 /\
     length (MonthlyTrend.rentals (monthly_trends v)) = 24 /\
     length (MonthlyTrend.revenue (monthly_trends v)) = 24 /\
     length (MonthlyTrend.new_customers (monthly_trends v)) = 24)%nat /\
    map (fun d => (year d, month d)) (MonthlyTrend.month (monthly_trends v))
    = map (fun m => (2018, m)) [1; 2; 3; 4; 5; 6; 7; 8; 9; 10; 11; 12]
      ++ map (fun m => (2019, m)) [1; 2; 3; 4; 5; 6; 7; 8; 9; 10; 11; 12] /\
    (ActorAnalysis.len (actor_analysis v) = 6 /\
     length (ActorAnalysis.male_actors (actor_analysis v)) = 6 /\
     length (ActorAnalysis.female_actors (actor_analysis v)) = 6 /\
     length (ActorAnalysis.avg_rating (actor_analysis v)) = 6)%nat.
Proof.
  exists (sample_visualizer mt19937_seed legacy_gauss).
  split; [now rewrite setup_sample_data_eq|].
  destruct (seeded_lengths mt19937_seed legacy_gauss) as (H1 & H2 & H3).
  split; [repeat split; reflexivity|].
  split; [repeat split; reflexivity|].
  split; [repeat split; reflexivity|].
  split.
  { cbn [monthly_trends sample_visualizer MonthlyTrend.rentals
         MonthlyTrend.revenue MonthlyTrend.new_customers].
    rewrite !length_map, H1, H2, H3. repeat split; reflexivity. }
  split; [reflexivity|].
  repeat split; reflexivity.
Qed.

(** C3.  Started in a fresh interpreter, in a working directory that is
    clear to write, the script runs to its end without an exception.  The
    files it leaves are those that were there plus the five output files at
    their documented paths under [visualizations/]; no other path is
    touched.  On the console, "All visualizations generated successfully!"
    closes the progress messages: all that follows is the list of the saved
    files and the closing summary block. *)
Theorem run_writes_five_files {rng_state : Type}
  (mt19937_seed : Z -> rng_state) (legacy_gauss : rng_state -> Q * rng_state)
  (style_available : list string)
  (g : rng_state) (d : gset string) (f : gmap string artifact) :
  clear_to_write d f ->
  exists s' head,
    main mt19937_seed legacy_gauss style_available (fresh g d f) = Ok tt s' /\
    output_paths
    = [ "visualizations/country_performance_dashboard.png";
        "visualizations/genre_analysis.png";
        "visualizations/customer_segmentation.png";
        "visualizations/temporal_analysis.png";
        "visualizations/interactive_dashboard.html" ] /\
    dom (files s') = dom f ∪ list_to_set output_paths /\
    (forall p, In p output_paths -> is_Some (files s' !! p)) /\
    (forall p, ~ In p output_paths -> files s' !! p = f !! p) /\
    stdout s'
    = (head ++ unlines progress_lines ++ unlines saved_files_lines
            ++ unlines summary_lines)%string /\
    List.last progress_lines "" = "All visualizations generated successfully!".
Proof.
  intros Hclear.
  destruct (main_ok mt19937_seed legacy_gauss style_available g d f Hclear)
    as (s' & head & a1 & a2 & a3 & a4 & a5 & E & _ & _ & Hfiles & Hout).
  exists s', head.
  split; [exact E|]. split; [reflexivity|].
  split; [|split; [|split; [|split; [exact Hout|reflexivity]]]].
  - rewrite Hfiles, !dom_insert_L. unfold output_paths. cbn [list_to_set].
    set_solver.
  - intros p Hp. rewrite Hfiles. unfold output_paths in Hp. cbn [In] in Hp.
    destruct Hp as [<-|[<-|[<-|[<-|[<-|[]]]]]];
      repeat first [rewrite lookup_insert_eq; eexists; reflexivity
                   |rewrite lookup_insert_ne by discriminate].
  - intros p Hp. rewrite Hfiles. unfold output_paths in Hp. cbn [In] in Hp.
    rewrite !lookup_insert_ne; [reflexivity|..]; intros <-; apply Hp; tauto.
Qed.

(** C6.  For each of the 24 months, the revenue-per-rental series of the
    temporal figure holds the true division of the revenue of that month by
    its rentals: when the rentals are not zero it is the exact ratio of the
    two stored integers, with no rounding step of the program in between;
    the series is what the fourth panel of the figure plots. *)
Theorem revenue_per_rental_is_ratio {rng_state : Type}
  (mt19937_seed : Z -> rng_state) (legacy_gauss : rng_state -> Q * rng_state)
  (s : state rng_state) (i : nat) :
  (i < 24)%nat ->
  exists v rev rent,
    visualizer (final (setup_sample_data mt19937_seed legacy_gauss s)) = Some v /\
    nth_error (MonthlyTrend.revenue (monthly_trends v)) i = Some rev /\
    nth_error (MonthlyTrend.rentals (monthly_trends v)) i = Some rent /\
    nth_error (revenue_per_rental (monthly_trends v)) i
    = Some (truediv (inject_Z rev) (inject_Z rent)) /\
    (rent <> 0 ->
     truediv (inject_Z rev) (inject_Z rent)
     = Finite (inject_Z rev / inject_Z rent)%Q) /\
    length (revenue_per_rental (monthly_trends v)) = 24%nat /\
    forall fig,
      temporal_figure (monthly_trends v) = inr fig ->
      In (on_axes 4 (plot (days (MonthlyTrend.month (monthly_trends v)))
                          (map Num (revenue_per_rental (monthly_trends v)))
                          None)) fig.
Proof.
  intros Hi.
  set (v := sample_visualizer mt19937_seed legacy_gauss).
  assert (Hv : visualizer (final (setup_sample_data mt19937_seed legacy_gauss s))
               = Some v) by now rewrite setup_sample_data_eq.
  destruct (seeded_lengths mt19937_seed legacy_gauss) as (H1 & H2 & _).
  assert (Hrent : length (MonthlyTrend.rentals (monthly_trends v)) = 24%nat).
  { subst v. cbn [monthly_trends sample_visualizer MonthlyTrend.rentals].
    now rewrite length_map. }
  assert (Hrev : length (MonthlyTrend.revenue (monthly_trends v)) = 24%nat).
  { subst v. cbn [monthly_trends sample_visualizer MonthlyTrend.revenue].
    now rewrite length_map. }
  clearbody v.
  destruct (nth_error (MonthlyTrend.revenue (monthly_trends v)) i) as [rev|] eqn:Erev;
    [|apply nth_error_None in Erev; lia].
  destruct (nth_error (MonthlyTrend.rentals (monthly_trends v)) i) as [rent|] eqn:Erent;
    [|apply nth_error_None in Erent; lia].
  exists v, rev, rent.
  split; [exact Hv|]. split; [exact Erev|]. split; [exact Erent|].
  split.
  { unfold revenue_per_rental. apply series_div_nth.
    - rewrite nth_error_map, Erev. reflexivity.
    - rewrite nth_error_map, Erent. reflexivity. }
  split.
  { intros Hne. apply truediv_finite. intros C.
    unfold Qeq in C. simpl in C. lia. }
  split.
  { unfold revenue_per_rental, series_div.
    rewrite length_map, length_combine, !length_map, Hrev, Hrent. reflexivity. }
  intros fig H. unfold temporal_figure in H.
  destruct (trend_values _ _) as [e|trend]; [discriminate|].
  injection H as <-. do 14 right. left. reflexivity.
Qed.

(** ** The statements at concrete inputs *)

Lemma empty_directory_clear : clear_to_write ∅ ∅.
Proof.
  split.
  - rewrite dom_empty_L. apply not_elem_of_empty.
  - intros p _. apply not_elem_of_empty.
Defined.

(** The rentals column of the country table is normalised in the heat map. *)
Lemma normalization_min_max_at_total_rentals :
  In ("total_rentals", map of_int [1250; 890; 720; 650; 580; 320; 420])
     (performance_matrix sample_country_kpis) /\
  In ("total_rentals",
      normalize_column (map of_int [1250; 890; 720; 650; 580; 320; 420]))
     (normalized_matrix sample_country_kpis).
Proof.
  split.
  - left. reflexivity.
  - apply (normalization_min_max sample_country_kpis "total_rentals"
             (map of_int [1250; 890; 720; 650; 580; 320; 420])).
    left. reflexivity.
Defined.

(** The ratings column of the genre table is ranked. *)
Lemma rank_permutation_at_avg_rating :
  In ("avg_rating", [8.1; 7.3; 6.9; 6.2; 7.8; 7.1; 7.5]%Q)
     (genre_metrics sample_genre_performance) /\
  In ("avg_rating", rank_descending [8.1; 7.3; 6.9; 6.2; 7.8; 7.1; 7.5]%Q)
     (rankings sample_genre_performance).
Proof.
  split.
  - left. reflexivity.
  - apply (rank_permutation_with_ties sample_genre_performance "avg_rating"
             [8.1; 7.3; 6.9; 6.2; 7.8; 7.1; 7.5]%Q).
    left. reflexivity.
Defined.

(** A run with the stand-in generator in an empty directory. *)
Lemma run_writes_five_files_in_empty_directory :
  clear_to_write ∅ ∅ /\
  succeeded (main counter_seed counter_gauss ["ggplot"; "seaborn"]
               (fresh 0%nat ∅ ∅)) = true.
Proof.
  split; [exact empty_directory_clear|].
  destruct (run_writes_five_files counter_seed counter_gauss ["ggplot"; "seaborn"]
              0%nat ∅ ∅ empty_directory_clear) as (s' & head & E & _).
  rewrite E. reflexivity.
Defined.

(** January 2018 with the stand-in generator. *)
Lemma revenue_per_rental_in_first_month :
  (0 < 24)%nat /\
  exists v rev rent,
    visualizer (final (setup_sample_data counter_seed counter_gauss
                         (fresh 0%nat ∅ ∅))) = Some v /\
    nth_error (MonthlyTrend.revenue (monthly_trends v)) 0 = Some rev /\
    nth_error (MonthlyTrend.rentals (monthly_trends v)) 0 = Some rent /\
    nth_error (revenue_per_rental (monthly_trends v)) 0
    = Some (truediv (inject_Z rev) (inject_Z rent)).
Proof.
  split; [lia|].
  destruct (revenue_per_rental_is_ratio counter_seed counter_gauss
              (fresh 0%nat ∅ ∅) 0%nat) as (v & rev & rent & H1 & H2 & H3 & H4 & _).
  - lia.
  - exists v, rev, rent. repeat split; assumption.
Defined.

(** * Further properties of the script *)

Section Further.

Context {rng_state : Type}.
Variable mt19937_seed : Z -> rng_state.
Variable legacy_gauss : rng_state -> Q * rng_state.

Implicit Types (s : state rng_state) (g : generator).

(** ** The output directory *)

(** [create_output_directory] never raises.  Afterwards something is at
    [visualizations]; a directory is made only when nothing was there, and a
    second call changes nothing.  Files, tables and console are untouched. *)
Theorem create_output_directory_idempotent s :
  exists s',
    create_output_directory s = Ok tt s' /\
    os_path_exists "visualizations" s' = true /\
    create_output_directory s' = Ok tt s' /\
    files s' = files s /\ visualizer s' = visualizer s /\ stdout s' = stdout s /\
    (os_path_exists "visualizations" s = true -> s' = s) /\
    (os_path_exists "visualizations" s = false ->
     dirs s' = {["visualizations"]} ∪ dirs s).
Proof.
  unfold create_output_directory, os_makedirs.
  destruct (os_path_exists "visualizations" s) eqn:E; cbn [negb].
  - exists s. rewrite E. cbn [negb].
    repeat split; try reflexivity. discriminate.
  - assert (E' : os_path_exists "visualizations" (add_dir "visualizations" s) = true).
    { unfold os_path_exists, add_dir. cbn [dirs files].
      rewrite (bool_decide_eq_true_2
                 ("visualizations" ∈ {["visualizations"]} ∪ dirs s)) by set_solver.
      reflexivity. }
    exists (add_dir "visualizations" s). rewrite E'. cbn [negb].
    repeat split; try reflexivity. discriminate.
Qed.

(** ** What a generator touches *)

(** A generator that raises leaves the whole state as it found it; one
    that succeeds writes exactly the file at its own output path.  In both
    cases every other path, the directories and the state of the random
    generator are as before. *)
Theorem generator_footprint g s :
  (succeeded (run_generator g s) = false -> final (run_generator g s) = s) /\
  (succeeded (run_generator g s) = true ->
   exists a, generator_result g (visualizer s) (dirs s) = inr a /\
             files (final (run_generator g s)) = <[output_path g := a]> (files s)) /\
  (forall p, p <> output_path g ->
     files (final (run_generator g s)) !! p = files s !! p) /\
  dirs (final (run_generator g s)) = dirs s /\
  np_random (final (run_generator g s)) = np_random s.
Proof.
  destruct (run_generator_frame g s) as (_ & Hd & Hr).
  rewrite run_generator_eq in *.
  destruct (generator_result g (visualizer s) (dirs s)) as [e|a];
    cbn [final succeeded] in *.
  - repeat split; try reflexivity; try discriminate.
  - split; [discriminate|]. split.
    + intros _. exists a. split; [reflexivity|apply files_after_generator].
    + split; [|split; assumption].
      intros p Hp. rewrite files_after_generator.
      apply lookup_insert_ne. congruence.
Qed.

(** Running a generator a second time overwrites its file with the same
    artifact: the files, the directories and the outcome are those of the
    first run. *)
Theorem generator_rerun g s :
  files (final (run_generator g (final (run_generator g s))))
  = files (final (run_generator g s)) /\
  dirs (final (run_generator g (final (run_generator g s))))
  = dirs (final (run_generator g s)) /\
  succeeded (run_generator g (final (run_generator g s)))
  = succeeded (run_generator g s).
Proof.
  destruct (run_generator_frame g s) as (Hv & Hd & _).
  rewrite (run_generator_eq g (final (run_generator g s))), Hv, Hd.
  rewrite (run_generator_eq g s).
  destruct (generator_result g (visualizer s) (dirs s)) as [e|a] eqn:E;
    cbn [final succeeded].
  - repeat split; reflexivity.
  - rewrite !files_after_generator, insert_insert_eq.
    destruct (frame_after_generator g a s) as (_ & H1 & _).
    destruct (frame_after_generator g a (after_generator g a s)) as (_ & H2 & _).
    rewrite H2, H1. repeat split; reflexivity.
Qed.

(** ** The style fallback and the style report *)

(** The fallback at the top of the script never raises: it takes
    [seaborn-v0_8] when installed, else [seaborn] when installed, else
    [default], and prints its note only in the last case. *)
Theorem select_style_fallback (available : list string) s :
  exists s',
    select_style available s = Ok tt s' /\
    rc_style s' = rc_style s ++ [style_choice available] /\
    stdout s'
    = (if bool_decide ("seaborn-v0_8" ∈ available)
          || bool_decide ("seaborn" ∈ available)
       then stdout s
       else stdout s ++ note_line ++ newline)%string /\
    visualizer s' = visualizer s /\ np_random s' = np_random s /\
    dirs s' = dirs s /\ files s' = files s /\ shown s' = shown s.
Proof.
  unfold select_style, try_except_OSError, style_use, style_choice.
  cbn [String.eqb Ascii.eqb Bool.eqb orb].
  destruct (bool_decide ("seaborn-v0_8" ∈ available)).
  { eexists. split; [reflexivity|]. repeat split; reflexivity. }
  destruct (bool_decide ("seaborn" ∈ available)).
  { eexists. split; [reflexivity|]. repeat split; reflexivity. }
  eexists. split; [reflexivity|]. repeat split; reflexivity.
Qed.

Lemma print_each_eq (l : list string) s :
  print_each l s =
  Ok tt (mkstate (visualizer s) (np_random s) (rc_style s) (dirs s) (files s)
                 (shown s) (stdout s ++ style_lines l)%string).
Proof.
  revert s. induction l as [|t l IH]; intros s.
  - cbn [print_each style_lines]. rewrite string_app_nil_r. now destruct s.
  - cbn [print_each style_lines]. unfold mbind, M_bind, print, modify.
    rewrite IH. unfold add_stdout.
    cbn [visualizer np_random rc_style dirs files shown stdout].
    rewrite !string_app_assoc. reflexivity.
Qed.

Lemma check_available_styles_eq (styles : list string) s :
  check_available_styles styles s =
  Ok tt (mkstate (visualizer s) (np_random s) (rc_style s) (dirs s) (files s)
                 (shown s)
                 (stdout s ++ "Available matplotlib styles:" ++ newline
                           ++ style_lines styles)%string).
Proof.
  unfold check_available_styles, mbind, M_bind, print, modify.
  rewrite print_each_eq. unfold add_stdout.
  cbn [visualizer np_random rc_style dirs files shown stdout].
  rewrite !string_app_assoc. reflexivity.
Qed.

(** [check_available_styles] only prints: the header, then one line per
    installed style in the order of the list (just the header when none is
    installed).  It never raises and changes nothing but the console. *)
Theorem check_available_styles_console (styles : list string) s :
  exists s',
    check_available_styles styles s = Ok tt s' /\
    stdout s'
    = (stdout s ++ "Available matplotlib styles:" ++ newline
                ++ style_lines styles)%string /\
    visualizer s' = visualizer s /\ np_random s' = np_random s /\
    rc_style s' = rc_style s /\ dirs s' = dirs s /\ files s' = files s /\
    shown s' = shown s.
Proof.
  eexists. split; [apply check_available_styles_eq|].
  repeat split; reflexivity.
Qed.

(** ** The orchestrator *)

Lemma bind_run_generator {B : Type} g (k : unit -> M rng_state B) s :
  (run_generator g ≫= k) s =
  match generator_result g (visualizer s) (dirs s) with
  | inl e => Raised e s
  | inr a => k tt (after_generator g a s)
  end.
Proof.
  unfold mbind, M_bind. rewrite run_generator_eq.
  destruct (generator_result g (visualizer s) (dirs s)); reflexivity.
Qed.

Lemma bind_create_interactive_dashboard {B : Type}
  (k : plotly_figure -> M rng_state B) s :
  (create_interactive_dashboard ≫= k) s =
  match generator_result Interactive (visualizer s) (dirs s) with
  | inl e => Raised e s
  | inr a => k (html_figure a) (after_generator Interactive a s)
  end.
Proof.
  unfold create_interactive_dashboard, generator_result, generator_artifact.
  unfold mbind, M_bind, attribute, mret, M_ret.
  destruct (visualizer s) as [v|]; cbn [first_attribute]; [|reflexivity].
  unfold write_html, open_for_writing, writable, output_path, print, modify,
    after_generator.
  destruct (negb (String.eqb _ "") && negb (bool_decide (_ ∈ dirs s)));
    [reflexivity|].
  destruct (bool_decide (_ ∈ dirs s)); reflexivity.
Qed.

Lemma generator_result_kind g (ov : option MovieNowVisualizer) (d : gset string)
  (a : artifact) :
  generator_result g ov d = inr a ->
  match g with
  | Interactive => exists fig, a = Html fig
  | _ => exists fig, a = Png fig
  end.
Proof.
  unfold generator_result, generator_artifact.
  destruct ov as [v|]; [|discriminate].
  destruct g.
  - destruct (writable _ d); [|discriminate]. intros [= <-]. eexists; reflexivity.
  - destruct (genre_figure _); [discriminate|].
    destruct (writable _ d); [|discriminate]. intros [= <-]. eexists; reflexivity.
  - destruct (writable _ d); [|discriminate]. intros [= <-]. eexists; reflexivity.
  - destruct (temporal_figure _); [discriminate|].
    destruct (writable _ d); [|discriminate]. intros [= <-]. eexists; reflexivity.
  - destruct (writable _ d); [|discriminate]. intros [= <-]. eexists; reflexivity.
Qed.

Ltac run_projections :=
  cbn [visualizer np_random rc_style dirs files shown stdout
       add_stdout add_shown write_file add_dir add_rc_style
       set_visualizer set_np_random after_generator output_path].

Ltac print_step := rewrite bind_print; cbv beta.

Ltac failed_before :=
  let j := fresh "j" in
  let gj := fresh "gj" in
  let Hj := fresh "Hj" in
  let Hg := fresh "Hg" in
  intros j gj Hj Hg;
  repeat (destruct j as [|j]; [injection Hg as <-; eexists; eassumption|]);
  cbn in Hj; lia.

Ltac untouched :=
  let p := fresh "p" in
  let Hp := fresh "Hp" in
  intros p Hp; cbn [firstn output_paths In] in Hp;
  rewrite ?lookup_insert_ne; [reflexivity|..]; intros <-; apply Hp; tauto.

(** The orchestrator, case by case: it stops at the first generator that
    raises, or runs through all five. *)
Lemma generate_all_visualizations_cases s :
  (exists k gk e s',
     nth_error generators k = Some gk /\
     generator_result gk (visualizer s) (dirs s) = inl e /\
     (forall j gj, (j < k)%nat -> nth_error generators j = Some gj ->
        exists a, generator_result gj (visualizer s) (dirs s) = inr a) /\
     generate_all_visualizations s = Raised e s' /\
     stdout s' = (stdout s ++ unlines (firstn (k + 2) progress_lines))%string /\
     (forall p, ~ In p (firstn k output_paths) -> files s' !! p = files s !! p) /\
     visualizer s' = visualizer s /\ dirs s' = dirs s) \/
  (exists a1 a2 a3 a4 a5 s',
     generator_result Country (visualizer s) (dirs s) = inr a1 /\
     generator_result Genre (visualizer s) (dirs s) = inr a2 /\
     generator_result Customer (visualizer s) (dirs s) = inr a3 /\
     generator_result Temporal (visualizer s) (dirs s) = inr a4 /\
     generator_result Interactive (visualizer s) (dirs s) = inr a5 /\
     generate_all_visualizations s = Ok tt s' /\
     files s' =
       <["visualizations/interactive_dashboard.html" := a5]>
         (<["visualizations/temporal_analysis.png" := a4]>
            (<["visualizations/customer_segmentation.png" := a3]>
               (<["visualizations/genre_analysis.png" := a2]>
                  (<["visualizations/country_performance_dashboard.png" := a1]>
                     (files s))))) /\
     stdout s'
     = (stdout s ++ unlines progress_lines ++ unlines saved_files_lines)%string /\
     visualizer s' = visualizer s /\ dirs s' = dirs s).
Proof.
  unfold generate_all_visualizations.
  do 2 print_step.
  change create_country_performance_dashboard
    with (run_generator (rng_state:=rng_state) Country).
  rewrite (bind_run_generator Country); run_projections.
  destruct (generator_result Country _ _) as [e1|a1] eqn:E1.
  { left. exists 0%nat, Country, e1. eexists.
    split; [reflexivity|]. split; [exact E1|]. split; [intros j gj Hj; lia|].
    split; [reflexivity|]. run_projections.
    split; [rewrite !string_app_assoc; reflexivity|].
    split; [intros p _; reflexivity|]. split; reflexivity. }
  destruct (generator_result_kind _ _ _ _ E1) as (f1 & ->). run_projections.
  print_step.
  change create_genre_analysis with (run_generator (rng_state:=rng_state) Genre).
  rewrite (bind_run_generator Genre); run_projections.
  destruct (generator_result Genre _ _) as [e2|a2] eqn:E2.
  { left. exists 1%nat, Genre, e2. eexists.
    split; [reflexivity|]. split; [exact E2|]. split; [failed_before|].
    split; [reflexivity|]. run_projections.
    split; [rewrite !string_app_assoc; reflexivity|].
    split; [untouched|]. split; reflexivity. }
  destruct (generator_result_kind _ _ _ _ E2) as (f2 & ->). run_projections.
  print_step.
  change create_customer_segmentation_viz
    with (run_generator (rng_state:=rng_state) Customer).
  rewrite (bind_run_generator Customer); run_projections.
  destruct (generator_result Customer _ _) as [e3|a3] eqn:E3.
  { left. exists 2%nat, Customer, e3. eexists.
    split; [reflexivity|]. split; [exact E3|]. split; [failed_before|].
    split; [reflexivity|]. run_projections.
    split; [rewrite !string_app_assoc; reflexivity|].
    split; [untouched|]. split; reflexivity. }
  destruct (generator_result_kind _ _ _ _ E3) as (f3 & ->). run_projections.
  print_step.
  change create_temporal_analysis
    with (run_generator (rng_state:=rng_state) Temporal).
  rewrite (bind_run_generator Temporal); run_projections.
  destruct (generator_result Temporal _ _) as [e4|a4] eqn:E4.
  { left. exists 3%nat, Temporal, e4. eexists.
    split; [reflexivity|]. split; [exact E4|]. split; [failed_before|].
    split; [reflexivity|]. run_projections.
    split; [rewrite !string_app_assoc; reflexivity|].
    split; [untouched|]. split; reflexivity. }
  destruct (generator_result_kind _ _ _ _ E4) as (f4 & ->). run_projections.
  print_step.
  rewrite bind_create_interactive_dashboard; run_projections.
  destruct (generator_result Interactive _ _) as [e5|a5] eqn:E5.
  { left. exists 4%nat, Interactive, e5. eexists.
    split; [reflexivity|]. split; [exact E5|]. split; [failed_before|].
    split; [reflexivity|]. run_projections.
    split; [rewrite !string_app_assoc; reflexivity|].
    split; [untouched|]. split; reflexivity. }
  destruct (generator_result_kind _ _ _ _ E5) as (f5 & ->). run_projections.
  do 6 print_step. unfold print, modify.
  right. exists (Png f1), (Png f2), (Png f3), (Png f4), (Html f5). eexists.
  do 6 (split; [reflexivity|]). run_projections.
  split; [reflexivity|].
  split; [rewrite !string_app_assoc; reflexivity|]. split; reflexivity.
Qed.

(** The orchestrator reports success only after all five generators have
    written their files: when it returns normally, each of the five output
    paths holds the artifact of its generator and the console has grown by
    the progress lines and the list of saved files. *)
Theorem success_means_five_files s :
  succeeded (generate_all_visualizations s) = true ->
  exists a1 a2 a3 a4 a5,
    generator_result Country (visualizer s) (dirs s) = inr a1 /\
    generator_result Genre (visualizer s) (dirs s) = inr a2 /\
    generator_result Customer (visualizer s) (dirs s) = inr a3 /\
    generator_result Temporal (visualizer s) (dirs s) = inr a4 /\
    generator_result Interactive (visualizer s) (dirs s) = inr a5 /\
    files (final (generate_all_visualizations s)) =
      <["visualizations/interactive_dashboard.html" := a5]>
        (<["visualizations/temporal_analysis.png" := a4]>
           (<["visualizations/customer_segmentation.png" := a3]>
              (<["visualizations/genre_analysis.png" := a2]>
                 (<["visualizations/country_performance_dashboard.png" := a1]>
                    (files s))))) /\
    stdout (final (generate_all_visualizations s))
    = (stdout s ++ unlines progress_lines ++ unlines saved_files_lines)%string.
Proof.
  intros Hok.
  destruct (generate_all_visualizations_cases s)
    as [(k & gk & e & s' & _ & _ & _ & E & _)
       |(a1 & a2 & a3 & a4 & a5 & s' & E1 & E2 & E3 & E4 & E5 & E & Hf & Ho & _)].
  - rewrite E in Hok. discriminate.
  - exists a1, a2, a3, a4, a5. rewrite E. cbn [final]. auto 10.
Qed.

(** The orchestrator stops at the first generator that raises: the
    exception is that generator's, the generators before it have run, the
    last console line is the announcement of the failing generator, and no
    output path of that generator or of a later one is touched. *)
Theorem stops_at_first_failure s :
  succeeded (generate_all_visualizations s) = false ->
  exists k gk e,
    nth_error generators k = Some gk /\
    generator_result gk (visualizer s) (dirs s) = inl e /\
    (forall j gj, (j < k)%nat -> nth_error generators j = Some gj ->
       exists a, generator_result gj (visualizer s) (dirs s) = inr a) /\
    generate_all_visualizations s
    = Raised e (final (generate_all_visualizations s)) /\
    stdout (final (generate_all_visualizations s))
    = (stdout s ++ unlines (firstn (k + 2) progress_lines))%string /\
    (forall p, ~ In p (firstn k output_paths) ->
       files (final (generate_all_visualizations s)) !! p = files s !! p).
Proof.
  intros Hfail.
  destruct (generate_all_visualizations_cases s)
    as [(k & gk & e & s' & Hk & He & Hbefore & E & Ho & Hf & _)
       |(a1 & a2 & a3 & a4 & a5 & s' & _ & _ & _ & _ & _ & E & _)].
  - exists k, gk, e. rewrite E. cbn [final]. auto 10.
  - rewrite E in Hfail. discriminate.
Qed.

(** ** A run blocked by a file *)

(** When a regular file called [visualizations] sits in the working
    directory, no directory is made and the run stops with an [OSError] at
    the first [savefig]: the tables are built, the console ends with the
    announcement of the country dashboard, and no file or directory is
    created or changed. *)
Theorem run_blocked_by_file (styles : list string)
  (g0 : rng_state) (d : gset string) (f : gmap string artifact) :
  "visualizations" ∈ dom f ->
  "visualizations" ∉ d ->
  exists s' head,
    main mt19937_seed legacy_gauss styles (fresh g0 d f)
    = Raised (OSError "visualizations/country_performance_dashboard.png") s' /\
    files s' = f /\ dirs s' = d /\
    visualizer s' = Some (sample_visualizer mt19937_seed legacy_gauss) /\
    stdout s'
    = (head ++ unlines ["Generating MovieNow Business Intelligence Visualizations...";
                        "1. Creating Country Performance Dashboard..."])%string.
Proof.
  intros Hf Hd. unfold main.
  destruct (select_style_ok styles (fresh g0 d f)) as (sty & out & E).
  erewrite bind_Ok by exact E. clear E. unfold fresh. run_projections.
  rewrite !bind_modify. cbv beta. print_step.
  erewrite bind_Ok by apply check_available_styles_eq.
  run_projections. print_step.
  erewrite bind_Ok.
  2:{ unfold init. erewrite bind_Ok by apply setup_sample_data_eq.
      unfold create_output_directory, os_path_exists. run_projections.
      rewrite (bool_decide_eq_true_2 ("visualizations" ∈ dom f) Hf), orb_true_r.
      reflexivity. }
  match goal with
  | |- context [(generate_all_visualizations ≫= _) ?s0] => set (s1 := s0)
  end.
  assert (Hc : generator_result Country (visualizer s1) (dirs s1)
               = inl (OSError "visualizations/country_performance_dashboard.png")).
  { subst s1. run_projections. unfold generator_result, generator_artifact, writable.
    cbn [output_path].
    change (dirname "visualizations/country_performance_dashboard.png")
      with "visualizations".
    rewrite (bool_decide_eq_false_2 ("visualizations" ∈ d) Hd). reflexivity. }
  destruct (generate_all_visualizations_cases s1)
    as [(k & gk & e & s' & Hk & He & Hbefore & E & Ho & Hfiles & Hv & Hdirs)
       |(a1 & a2 & a3 & a4 & a5 & s' & E1 & _)]; [|congruence].
  destruct k as [|k].
  - cbn in Hk. injection Hk as <-. rewrite Hc in He. injection He as <-.
    erewrite bind_Raised by exact E.
    eexists. exists (stdout s1). split; [reflexivity|].
    split.
    { apply map_eq. intros p. rewrite Hfiles by (cbn; tauto). reflexivity. }
    split; [exact Hdirs|]. split; [exact Hv|]. exact Ho.
  - destruct (Hbefore 0%nat Country) as (a & Ha); [lia|reflexivity|congruence].
Qed.

(** ** Running the script again *)



End Further.

(** ** Further properties of the statistics *)

Lemma Qdiv_le_iff (a b d : Q) : (0 < d)%Q -> (a / d <= b / d <-> a <= b)%Q.
Proof.
  intros Hd. unfold Qdiv. apply Qmult_le_r. now apply Qinv_lt_0_compat.
Qed.

Lemma Qdiv_eq_iff (a b d : Q) : (0 < d)%Q -> (a / d == b / d <-> a == b)%Q.
Proof.
  intros Hd. split; intros H.
  - apply Qle_antisym; apply (Qdiv_le_iff _ _ d Hd); rewrite H; apply Qle_refl.
  - now rewrite H.
Qed.

(** The heat map keeps the order of the values: in a column with two
    different values every normalised entry is finite, a row with a smaller
    value gets a smaller entry, and equal values get equal entries.  The
    normalised column has as many rows as the column. *)
Theorem normalization_keeps_order (col : list Q) (i j : nat) (u v : Q) :
  (exists x y, In x col /\ In y col /\ ~ (x == y)%Q) ->
  nth_error col i = Some u ->
  nth_error col j = Some v ->
  exists p q,
    nth_error (normalize_column col) i = Some (Finite p) /\
    nth_error (normalize_column col) j = Some (Finite q) /\
    ((u <= v)%Q <-> (p <= q)%Q) /\
    ((u == v)%Q <-> (p == q)%Q) /\
    length (normalize_column col) = length col.
Proof.
  intros (x & y & Hx & Hy & Hxy) Hi Hj.
  destruct col as [|c r]; [destruct Hx|].
  assert (Hlt : (column_min c r < column_max c r)%Q).
  { destruct (Qlt_le_dec (column_min c r) (column_max c r)) as [L|L]; [exact L|].
    exfalso. apply Hxy.
    pose proof (column_min_le c r x Hx). pose proof (column_max_ge c r x Hx).
    pose proof (column_min_le c r y Hy). pose proof (column_max_ge c r y Hy).
    lra. }
  assert (Hd : (0 < column_max c r - column_min c r)%Q) by lra.
  exists ((u - column_min c r) / (column_max c r - column_min c r))%Q,
         ((v - column_min c r) / (column_max c r - column_min c r))%Q.
  unfold normalize_column.
  rewrite !nth_error_map, Hi, Hj. cbn [option_map].
  rewrite !truediv_finite by lra.
  split; [reflexivity|]. split; [reflexivity|].
  split; [|split].
  - rewrite (Qdiv_le_iff _ _ _ Hd). split; intros H; lra.
  - rewrite (Qdiv_eq_iff _ _ _ Hd). split; intros H; lra.
  - apply length_map.
Qed.

Lemma count_disjoint_le (p q r : Q -> bool) (l : list Q) :
  (forall x, p x = true -> r x = true) ->
  (forall x, q x = true -> r x = true) ->
  (forall x, p x = true -> q x = false) ->
  (count p l + count q l <= count r l)%nat.
Proof.
  intros Hp Hq Hpq. induction l as [|x l IH]; [reflexivity|].
  rewrite !count_cons.
  destruct (p x) eqn:Px.
  - rewrite (Hp x Px), (Hpq x Px). lia.
  - destruct (q x) eqn:Qx.
    + rewrite (Hq x Qx). lia.
    + destruct (r x); lia.
Qed.

Lemma larger_plus_tied (col : list Q) (u v : Q) :
  (u < v)%Q -> (larger col v + tied col v <= larger col u)%nat.
Proof.
  intros Huv. unfold larger, tied. apply count_disjoint_le.
  - intros x Hx. apply Qltb_lt in Hx. apply Qltb_lt. lra.
  - intros x Hx. apply Qeq_bool_eq in Hx. apply Qltb_lt. lra.
  - intros x Hx. apply Qltb_lt in Hx.
    destruct (Qeq_bool x v) eqn:E; [|reflexivity].
    apply Qeq_bool_eq in E. lra.
Qed.

Lemma larger_plus_tied_le_length (col : list Q) (v : Q) :
  (larger col v + tied col v <= length col)%nat.
Proof.
  rewrite <- count_all. unfold larger, tied. apply count_disjoint_le; auto.
  intros x Hx. apply Qltb_lt in Hx.
  destruct (Qeq_bool x v) eqn:E; [|reflexivity].
  apply Qeq_bool_eq in E. lra.
Qed.

Lemma inject_nat_le (a b : nat) :
  (a <= b)%nat -> (inject_Z (Z.of_nat a) <= inject_Z (Z.of_nat b))%Q.
Proof. intros H. rewrite <- Zle_Qle. lia. Qed.

Lemma inject_nat_plus (a b : nat) :
  (inject_Z (Z.of_nat (a + b)) == inject_Z (Z.of_nat a) + inject_Z (Z.of_nat b))%Q.
Proof. rewrite Nat2Z.inj_add, inject_Z_plus. reflexivity. Qed.

(** Rank 1 is the best: every rank lies between 1 and the number of rows,
    and of two rows the one with the larger value has the strictly smaller
    rank, ties or not. *)
Theorem larger_value_smaller_rank (col : list Q) (i j : nat) (u v : Q) :
  nth_error col i = Some u ->
  nth_error col j = Some v ->
  exists ru rv,
    nth_error (rank_descending col) i = Some ru /\
    nth_error (rank_descending col) j = Some rv /\
    (1 <= ru <= inject_Z (Z.of_nat (length col)))%Q /\
    ((u < v)%Q -> (rv < ru)%Q).
Proof.
  intros Hi Hj.
  assert (Hu : In u col) by (eapply nth_error_In; exact Hi).
  assert (Hv : In v col) by (eapply nth_error_In; exact Hj).
  eexists. eexists.
  split; [apply rank_descending_nth; exact Hi|].
  split; [apply rank_descending_nth; exact Hj|].
  pose proof (tied_positive col u Hu) as Eu.
  pose proof (tied_positive col v Hv) as Ev.
  rewrite !rank_average_value by assumption.
  pose proof (inject_nat_le _ _ Eu) as Qu. pose proof (inject_nat_le _ _ Ev) as Qv.
  change (inject_Z (Z.of_nat 1)) with 1%Q in Qu, Qv.
  pose proof (inject_nat_le 0 (larger col u) (Nat.le_0_l _)) as Gu.
  change (inject_Z (Z.of_nat 0)) with 0%Q in Gu.
  pose proof (inject_nat_le _ _ (larger_plus_tied_le_length col u)) as L.
  rewrite inject_nat_plus in L.
  assert (L' : (u < v)%Q ->
               (inject_Z (Z.of_nat (larger col v)) + inject_Z (Z.of_nat (tied col v))
                <= inject_Z (Z.of_nat (larger col u)))%Q).
  { intros Huv. rewrite <- inject_nat_plus. apply inject_nat_le.
    now apply larger_plus_tied. }
  pose proof (inject_nat_le 0 (larger col v) (Nat.le_0_l _)) as Gv.
  change (inject_Z (Z.of_nat 0)) with 0%Q in Gv.
  generalize dependent (inject_Z (Z.of_nat (larger col u))).
  generalize dependent (inject_Z (Z.of_nat (larger col v))).
  generalize dependent (inject_Z (Z.of_nat (tied col u))).
  generalize dependent (inject_Z (Z.of_nat (tied col v))).
  generalize dependent (inject_Z (Z.of_nat (length col))).
  intros n ev Hev eu Heu gv Hgv gu Hgu Hn Hlt.
  assert (Hu2 : (2 * ((eu + 1) / 2) == eu + 1)%Q) by field.
  assert (Hv2 : (2 * ((ev + 1) / 2) == ev + 1)%Q) by field.
  generalize dependent ((eu + 1) / 2)%Q. generalize dependent ((ev + 1) / 2)%Q.
  intros hv Hv2 hu Hu2.
  split; [split; lra|]. intros Huv. specialize (Hlt Huv). lra.
Qed.

Lemma truediv_by_zero (z : Z) :
  truediv (inject_Z z) (inject_Z 0)
  = if z =? 0 then NaN else if z <? 0 then NegInf else PosInf.
Proof.
  unfold truediv.
  replace (Qeq_bool (inject_Z 0) 0) with true by reflexivity.
  destruct (Z.eqb_spec z 0) as [->|Hne]; [reflexivity|].
  destruct (Qeq_bool (inject_Z z) 0) eqn:E.
  { apply Qeq_bool_eq in E. unfold Qeq in E. cbn in E. lia. }
  destruct (Qltb (inject_Z z) 0) eqn:L.
  - apply Qltb_lt in L. unfold Qlt in L. cbn in L.
    destruct (Z.ltb_spec z 0); [reflexivity|lia].
  - destruct (Z.ltb_spec z 0) as [Hlt|Hge]; [|reflexivity].
    assert (K : Qltb (inject_Z z) 0 = true).
    { apply Qltb_lt. unfold Qlt. cbn. lia. }
    congruence.
Qed.

(** A month without rentals does not stop the temporal report: the ratio
    of that month is the NaN of [0/0] or an infinity with the sign of the
    revenue, and for a table of 24 months the figure is still built, with
    that series in its fourth panel. *)
Theorem zero_rentals_do_not_raise (df : MonthlyTrend.t) (i : nat) (rev : Z) :
  MonthlyTrend.len df = 24%nat ->
  length (MonthlyTrend.rentals df) = 24%nat ->
  nth_error (MonthlyTrend.revenue df) i = Some rev ->
  nth_error (MonthlyTrend.rentals df) i = Some 0 ->
  nth_error (revenue_per_rental df) i
  = Some (if rev =? 0 then NaN else if rev <? 0 then NegInf else PosInf) /\
  exists fig,
    temporal_figure df = inr fig /\
    In (on_axes 4 (plot (days (MonthlyTrend.month df))
                        (map Num (revenue_per_rental df)) None)) fig.
Proof.
  intros Hlen Hrent Hrev Hzero. split.
  - unfold revenue_per_rental.
    rewrite (series_div_nth _ _ i (of_int rev) (of_int 0)).
    + f_equal. apply truediv_by_zero.
    + rewrite nth_error_map, Hrev. reflexivity.
    + rewrite nth_error_map, Hzero. reflexivity.
  - destruct (rentals_trend_defined df Hlen Hrent) as (a & b & E).
    unfold temporal_figure. rewrite E. cbn [trend_values].
    eexists. split; [reflexivity|]. do 14 right. left. reflexivity.
Qed.


(** [s.split(' ')[0]], the label of a segment in the scatter panel, is the
    part of the segment name before its first space: it holds no space, and
    the name is either this word alone or the word, a space and a rest. *)
Theorem first_word_is_prefix (s : string) :
  has_space (first_word s) = false /\
  (has_space s = false -> first_word s = s) /\
  (has_space s = true ->
   exists rest, s = (first_word s ++ String " "%char rest)%string).
Proof.
  induction s as [|c s (IH1 & IH2 & IH3)]; cbn [first_word has_space].
  - repeat split; try reflexivity. discriminate.
  - destruct (Ascii.eqb_spec c " "%char) as [->|Hc]; cbn [orb has_space].
    + repeat split; try discriminate. intros _. exists s. reflexivity.
    + apply Ascii.eqb_neq in Hc. rewrite Hc. cbn [orb].
      split; [exact IH1|]. split.
      * intros H. now rewrite IH2.
      * intros H. destruct (IH3 H) as (rest & E). exists rest.
        rewrite string_app_cons. now rewrite <- E.
Qed.

(** [s.replace(' ', '\n')], the tick label of a segment: every space
    becomes a line break and nothing else changes, so the label has the
    length of the name, holds no space, and a name without a space is its
    own label. *)
Theorem tick_label_has_no_space (s : string) :
  String.length (replace_space_newline s) = String.length s /\
  has_space (replace_space_newline s) = false /\
  (has_space s = false -> replace_space_newline s = s) /\
  replace_space_newline (replace_space_newline s) = replace_space_newline s.
Proof.
  induction s as [|c s (IH1 & IH2 & IH3 & IH4)];
    cbn [replace_space_newline has_space String.length].
  - repeat split; reflexivity.
  - destruct (Ascii.eqb_spec c " "%char) as [->|Hc].
    + cbn [Ascii.eqb Bool.eqb orb andb]. rewrite IH1, IH2, IH4.
      repeat split; try reflexivity. discriminate.
    + apply Ascii.eqb_neq in Hc. rewrite Hc. cbn [orb].
      rewrite IH1, IH2, IH4. split; [reflexivity|]. split; [reflexivity|].
      split; [|reflexivity]. intros H. now rewrite IH3.
Qed.

(** ** The draws behind the monthly columns *)

Section Draws.

Context {rng_state : Type}.
Variable mt19937_seed : Z -> rng_state.
Variable legacy_gauss : rng_state -> Q * rng_state.

Lemma normal_draws_gauss (loc scale : Q) (n : nat) (g : rng_state) :
  normal_draws legacy_gauss loc scale n g =
  (map (fun z => (loc + scale * z)%Q) (fst (gauss_draws legacy_gauss n g)),
   snd (gauss_draws legacy_gauss n g)).
Proof.
  revert g. induction n as [|n IH]; intros g; [reflexivity|].
  cbn [normal_draws gauss_draws]. destruct (legacy_gauss g) as [z g1].
  rewrite IH. destruct (gauss_draws legacy_gauss n g1) as [r g2]. reflexivity.
Qed.

Lemma gauss_draws_add (n m : nat) (g : rng_state) :
  gauss_draws legacy_gauss (n + m) g =
  (fst (gauss_draws legacy_gauss n g)
   ++ fst (gauss_draws legacy_gauss m (snd (gauss_draws legacy_gauss n g))),
   snd (gauss_draws legacy_gauss m (snd (gauss_draws legacy_gauss n g)))).
Proof.
  revert g. induction n as [|n IH]; intros g.
  - cbn. now destruct (gauss_draws legacy_gauss m g).
  - cbn [Nat.add gauss_draws]. destruct (legacy_gauss g) as [z g1].
    rewrite IH. destruct (gauss_draws legacy_gauss n g1) as [r g2]. reflexivity.
Qed.

Lemma length_gauss_draws (n : nat) (g : rng_state) :
  length (fst (gauss_draws legacy_gauss n g)) = n.
Proof.
  revert g. induction n as [|n IH]; intros g; [reflexivity|].
  cbn [gauss_draws]. destruct (legacy_gauss g) as [z g1].
  specialize (IH g1). destruct (gauss_draws legacy_gauss n g1) as [r g2].
  cbn [fst length] in *. now rewrite IH.
Qed.

Lemma firstn_exact (l r : list Q) (n : nat) :
  length l = n -> firstn n (l ++ r) = l.
Proof.
  intros <-. rewrite firstn_app, Nat.sub_diag, firstn_O, app_nil_r.
  apply firstn_all.
Qed.

Lemma skipn_exact (l r : list Q) (n : nat) :
  length l = n -> skipn n (l ++ r) = r.
Proof.
  intros <-. rewrite skipn_app, Nat.sub_diag, skipn_O, skipn_all. reflexivity.
Qed.

(** The three monthly columns come from one stream of 72 standard-normal
    samples drawn after reseeding with 42: rentals from samples 1 to 24,
    revenue from samples 25 to 48, new customers from samples 49 to 72, each
    scaled, shifted and cut to an integer.  The global generator is left in
    the state after these 72 samples, whatever state it had before. *)
Theorem columns_use_consecutive_draws (s : state rng_state) :
  exists v,
    visualizer (final (setup_sample_data mt19937_seed legacy_gauss s)) = Some v /\
    MonthlyTrend.rentals (monthly_trends v)
    = map (fun z => astype_int (800 + 150 * z)%Q)
          (firstn 24 (fst (gauss_draws legacy_gauss 72 (mt19937_seed 42)))) /\
    MonthlyTrend.revenue (monthly_trends v)
    = map (fun z => astype_int (5600 + 1050 * z)%Q)
          (firstn 24 (skipn 24 (fst (gauss_draws legacy_gauss 72 (mt19937_seed 42))))) /\
    MonthlyTrend.new_customers (monthly_trends v)
    = map (fun z => astype_int (45 + 12 * z)%Q)
          (skipn 48 (fst (gauss_draws legacy_gauss 72 (mt19937_seed 42)))) /\
    length (fst (gauss_draws legacy_gauss 72 (mt19937_seed 42))) = 72%nat /\
    np_random (final (setup_sample_data mt19937_seed legacy_gauss s))
    = snd (gauss_draws legacy_gauss 72 (mt19937_seed 42)).
Proof.
  exists (sample_visualizer mt19937_seed legacy_gauss).
  rewrite setup_sample_data_eq. cbn [final visualizer np_random set_visualizer set_np_random].
  split; [reflexivity|].
  cbn [monthly_trends sample_visualizer MonthlyTrend.rentals MonthlyTrend.revenue
       MonthlyTrend.new_customers].
  unfold seeded_columns. change (length months) with 24%nat.
  rewrite !normal_draws_gauss. cbn [fst snd].
  change 72%nat with (24 + (24 + 24))%nat.
  rewrite (gauss_draws_add 24 (24 + 24)), (gauss_draws_add 24 24). cbn [fst snd].
  set (g0 := mt19937_seed 42).
  set (g1 := snd (gauss_draws legacy_gauss 24 g0)).
  set (g2 := snd (gauss_draws legacy_gauss 24 g1)).
  pose proof (length_gauss_draws 24 g0) as L0.
  pose proof (length_gauss_draws 24 g1) as L1.
  pose proof (length_gauss_draws 24 g2) as L2.
  set (z0 := fst (gauss_draws legacy_gauss 24 g0)) in *.
  set (z1 := fst (gauss_draws legacy_gauss 24 g1)) in *.
  set (z2 := fst (gauss_draws legacy_gauss 24 g2)) in *.
  rewrite !map_map.
  split.
  { now rewrite (firstn_exact _ _ _ L0). }
  split.
  { now rewrite (skipn_exact _ _ _ L0), (firstn_exact _ _ _ L1). }
  split.
  { change 48%nat with (24 + 24)%nat. rewrite <- skipn_skipn.
    now rewrite (skipn_exact _ _ _ L0), (skipn_exact _ _ _ L1). }
  split; [|reflexivity].
  rewrite !length_app, L0, L1, L2. reflexivity.
Qed.

(** Without rows there is no trend line: on a genre table or a monthly
    table with no rows the generator raises before anything is written, and
    leaves the state as it found it. *)
Theorem empty_table_stops_generator (s : state rng_state) (v : MovieNowVisualizer) :
  visualizer s = Some v ->
  (GenrePerformance.avg_price (genre_performance v) = [] ->
   succeeded (run_generator Genre s) = false /\
   final (run_generator Genre s) = s) /\
  (MonthlyTrend.month (monthly_trends v) = [] ->
   succeeded (run_generator Temporal s) = false /\
   final (run_generator Temporal s) = s).
Proof.
  intros Hv. split; intros He; rewrite run_generator_eq, Hv;
    unfold generator_result, generator_artifact.
  - unfold genre_figure, genre_trend, polyfit1. rewrite He. cbn [length].
    destruct (GenrePerformance.avg_rating (genre_performance v));
      cbn; split; reflexivity.
  - unfold temporal_figure, rentals_trend, polyfit1, MonthlyTrend.len.
    rewrite He. cbn [length range seq map].
    destruct (MonthlyTrend.rentals (monthly_trends v));
      cbn; split; reflexivity.
Qed.

End Draws.

(** ** Ranks share the places, and a fitted line is recovered *)

Lemma count_nil (p : Q -> bool) : count p [] = 0%nat.
Proof. reflexivity. Qed.

Lemma count_trichotomy (l : list Q) (v : Q) :
  (count (fun u => Qltb v u) l + count (fun u => Qltb u v) l
   + count (fun u => Qeq_bool u v) l = length l)%nat.
Proof.
  induction l as [|x l IH]; [reflexivity|].
  rewrite !count_cons. cbn [length].
  destruct (Q_dec v x) as [[L|L]|L].
  - rewrite (proj2 (Qltb_lt v x) L).
    replace (Qltb x v) with false
      by (symmetry; apply not_true_is_false; intros C; apply Qltb_lt in C; lra).
    replace (Qeq_bool x v) with false
      by (symmetry; apply not_true_is_false; intros C; apply Qeq_bool_eq in C; lra).
    lia.
  - rewrite (proj2 (Qltb_lt x v) L).
    replace (Qltb v x) with false
      by (symmetry; apply not_true_is_false; intros C; apply Qltb_lt in C; lra).
    replace (Qeq_bool x v) with false
      by (symmetry; apply not_true_is_false; intros C; apply Qeq_bool_eq in C; lra).
    lia.
  - rewrite (Qeq_eq_bool x v (Qeq_sym _ _ L)).
    replace (Qltb x v) with false
      by (symmetry; apply not_true_is_false; intros C; apply Qltb_lt in C; lra).
    replace (Qltb v x) with false
      by (symmetry; apply not_true_is_false; intros C; apply Qltb_lt in C; lra).
    lia.
Qed.

Lemma list_sum_cons (n : nat) (l : list nat) :
  list_sum (n :: l) = (n + list_sum l)%nat.
Proof. reflexivity. Qed.

Lemma list_sum_map_add (f g : Q -> nat) (l : list Q) :
  list_sum (map (fun u => (f u + g u)%nat) l)
  = (list_sum (map f l) + list_sum (map g l))%nat.
Proof.
  induction l as [|x l IH]; [reflexivity|].
  cbn [map]. rewrite !list_sum_cons, IH. lia.
Qed.

Lemma list_sum_indicator (p : Q -> bool) (l : list Q) :
  list_sum (map (fun u => if p u then 1%nat else 0%nat) l) = count p l.
Proof.
  induction l as [|x l IH]; [reflexivity|].
  cbn [map]. rewrite list_sum_cons, count_cons, IH. reflexivity.
Qed.

Lemma list_sum_const (n : nat) (l : list Q) :
  list_sum (map (fun _ => n) l) = (length l * n)%nat.
Proof.
  induction l as [|x l IH]; [reflexivity|].
  cbn [map length]. rewrite list_sum_cons, IH. lia.
Qed.

(** Counting the pairs of a relation row by row or column by column. *)
Lemma count_swap (R : Q -> Q -> bool) (l1 l2 : list Q) :
  list_sum (map (fun v => count (fun u => R v u) l2) l1)
  = list_sum (map (fun u => count (fun v => R v u) l1) l2).
Proof.
  induction l1 as [|x l1 IH].
  - cbn [map]. symmetry.
    rewrite (map_ext _ (fun _ => 0%nat)) by (intros; apply count_nil).
    rewrite list_sum_const. cbn. lia.
  - cbn [map]. rewrite list_sum_cons, IH.
    rewrite (map_ext (fun u => count (fun v => R v u) (x :: l1))
                     (fun u => ((if R x u then 1 else 0)
                                + count (fun v => R v u) l1)%nat))
      by (intros u; exact (count_cons (fun v => R v u) x l1)).
    rewrite list_sum_map_add, list_sum_indicator. reflexivity.
Qed.

Lemma larger_tied_total (col : list Q) :
  (2 * list_sum (map (larger col) col) + list_sum (map (tied col) col)
   = length col * length col)%nat.
Proof.
  assert (H : list_sum (map (fun v => (larger col v
                                         + count (fun u => Qltb u v) col
                                         + tied col v)%nat) col)
              = (length col * length col)%nat).
  { rewrite (map_ext _ (fun _ => length col))
      by (intros v; apply count_trichotomy).
    apply list_sum_const. }
  rewrite !list_sum_map_add in H.
  assert (S : list_sum (map (fun v => count (fun u => Qltb u v) col) col)
              = list_sum (map (larger col) col)).
  { unfold larger. symmetry. apply (count_swap Qltb). }
  rewrite S in H. lia.
Qed.

Lemma Qsum_map_ext_in (f g : Q -> Q) (l : list Q) :
  (forall x, In x l -> (f x == g x)%Q) ->
  (Qsum (map f l) == Qsum (map g l))%Q.
Proof.
  induction l as [|x l IH]; intros H; [reflexivity|].
  cbn [map Qsum fold_right]. fold (Qsum (map f l)). fold (Qsum (map g l)).
  rewrite (H x (or_introl eq_refl)), IH; [reflexivity|].
  intros y Hy. apply H. now right.
Qed.

Lemma Qsum_map_counts (G E : Q -> nat) (l : list Q) :
  (Qsum (map (fun v => inject_Z (Z.of_nat (G v))
                       + (inject_Z (Z.of_nat (E v)) + 1) / 2) l)
   == inject_Z (Z.of_nat (list_sum (map G l)))
      + (inject_Z (Z.of_nat (list_sum (map E l)))
         + inject_Z (Z.of_nat (length l))) / 2)%Q.
Proof.
  induction l as [|x l IH].
  - cbn. field.
  - cbn [map Qsum fold_right length]. rewrite !list_sum_cons.
    fold (Qsum (map (fun v => (inject_Z (Z.of_nat (G v))
                               + (inject_Z (Z.of_nat (E v)) + 1) / 2)%Q) l)).
    rewrite IH, !inject_nat_plus.
    change (S (length l)) with (1 + length l)%nat. rewrite inject_nat_plus.
    change (inject_Z (Z.of_nat 1)) with 1%Q. field.
Qed.

(** Averaging shares the places of a tie group among its members: for any
    column, with or without ties, the ranks add up to the sum 1 + ... + N
    of the places. *)
Theorem ranks_share_the_places (col : list Q) :
  (Qsum (rank_descending col)
   == inject_Z (Z.of_nat (length col))
      * (inject_Z (Z.of_nat (length col)) + 1) / 2)%Q.
Proof.
  unfold rank_descending.
  rewrite (Qsum_map_ext_in _
             (fun v => inject_Z (Z.of_nat (larger col v))
                       + (inject_Z (Z.of_nat (tied col v)) + 1) / 2)%Q).
  2:{ intros v Hv. cbv zeta. apply rank_average_value. now apply tied_positive. }
  rewrite Qsum_map_counts.
  pose proof (larger_tied_total col) as H.
  apply (f_equal (fun k => inject_Z (Z.of_nat k))) in H.
  assert (H' : (2 * inject_Z (Z.of_nat (list_sum (map (larger col) col)))
                + inject_Z (Z.of_nat (list_sum (map (tied col) col)))
                == inject_Z (Z.of_nat (length col))
                   * inject_Z (Z.of_nat (length col)))%Q).
  { rewrite <- inject_Z_mult, <- Nat2Z.inj_mul, <- H.
    rewrite Nat2Z.inj_add, Nat2Z.inj_mul, inject_Z_plus, inject_Z_mult.
    reflexivity. }
  generalize dependent (inject_Z (Z.of_nat (list_sum (map (larger col) col)))).
  generalize dependent (inject_Z (Z.of_nat (list_sum (map (tied col) col)))).
  generalize dependent (inject_Z (Z.of_nat (length col))).
  intros n b a H'.
  transitivity ((2 * a + b + n) / 2)%Q; [field|].
  rewrite H'. field.
Qed.

Lemma Qsum_poly1d (a b : Q) (x : list Q) :
  (Qsum (poly1d a b x) == a * Qsum x + inject_Z (Z.of_nat (length x)) * b)%Q.
Proof.
  induction x as [|u x IH].
  - cbn. field.
  - unfold poly1d in *. cbn [map Qsum fold_right length].
    fold (Qsum (map (fun v => (a * v + b)%Q) x)). fold (Qsum x).
    rewrite IH. change (S (length x)) with (1 + length x)%nat.
    rewrite inject_nat_plus. change (inject_Z (Z.of_nat 1)) with 1%Q. field.
Qed.

Lemma Qdot_poly1d (a b : Q) (x : list Q) :
  (Qdot x (poly1d a b x) == a * Qdot x x + b * Qsum x)%Q.
Proof.
  induction x as [|u x IH].
  - cbn. field.
  - unfold Qdot, poly1d in *. cbn [map combine Qsum fold_right fst snd].
    fold (Qsum (map (fun p => (fst p * snd p)%Q)
                    (combine x (map (fun v => (a * v + b)%Q) x)))).
    fold (Qsum (map (fun p => (fst p * snd p)%Q) (combine x x))).
    fold (Qsum x). rewrite IH. field.
Qed.

(** Fitting recovers a line: when the abscissae are not all equal and the
    data lie exactly on the line [a * x + b], the fit returns the
    coefficients of that line. *)
Theorem trend_recovers_line (x : list Q) (a b : Q) :
  ~ (fit_denominator x == 0)%Q ->
  exists a' b',
    polyfit1 x (poly1d a b x) = Fit a' b' /\ (a' == a)%Q /\ (b' == b)%Q.
Proof.
  intros Hd. unfold polyfit1.
  replace (length (poly1d a b x)) with (length x)
    by (unfold poly1d; now rewrite length_map).
  rewrite Nat.eqb_refl. cbn [negb].
  destruct (Nat.eqb (length x) 0) eqn:E0.
  { apply Nat.eqb_eq in E0. destruct x; [|discriminate].
    exfalso. apply Hd. reflexivity. }
  apply Nat.eqb_neq in E0.
  destruct (Qeq_bool (fit_denominator x) 0) eqn:Ed.
  { apply Qeq_bool_eq in Ed. contradiction. }
  eexists. eexists. split; [reflexivity|].
  assert (Hn : ~ (inject_Z (Z.of_nat (length x)) == 0)%Q).
  { intros C. unfold Qeq in C. cbn in C. lia. }
  assert (Ha : ((inject_Z (Z.of_nat (length x)) * Qdot x (poly1d a b x)
                 - Qsum x * Qsum (poly1d a b x)) / fit_denominator x == a)%Q).
  { rewrite Qsum_poly1d, Qdot_poly1d. unfold fit_denominator in *.
    field. exact Hd. }
  split; [exact Ha|].
  rewrite Ha, Qsum_poly1d. field. exact Hn.
Qed.

(** ** The interactive dashboard *)

(** When the interactive dashboard generator returns, the figure it
    returns is the one it has written: the HTML file at its output path
    holds that figure, built from the tables of the visualizer, every other
    path is as before, and the console has one more line, the notice that
    the dashboard was saved. *)
Theorem dashboard_returns_what_it_wrote {rng_state : Type}
  (s s' : state rng_state) (fig : plotly_figure) :
  create_interactive_dashboard s = Ok fig s' ->
  files s' = <["visualizations/interactive_dashboard.html" := Html fig]> (files s) /\
  (exists v, visualizer s = Some v /\ fig = interactive_figure v) /\
  stdout s'
  = (stdout s
     ++ "Interactive dashboard saved as 'visualizations/interactive_dashboard.html'"
     ++ newline)%string /\
  visualizer s' = visualizer s /\ dirs s' = dirs s.
Proof.
  unfold create_interactive_dashboard.
  unfold mbind, M_bind, attribute, write_html, open_for_writing, print, modify,
    mret, M_ret.
  destruct (visualizer s) as [v|] eqn:Ev; [|discriminate].
  destruct (negb (String.eqb _ "") && negb (bool_decide (_ ∈ dirs s)));
    [discriminate|].
  destruct (bool_decide (_ ∈ dirs s)); [discriminate|].
  intros H. injection H as <- <-.
  cbn [files stdout visualizer dirs add_stdout write_file].
  split; [reflexivity|]. split; [exists v; split; reflexivity|].
  split; [reflexivity|]. split; first [reflexivity | exact Ev].
Qed.

(** ** The further statements at concrete inputs *)

Lemma success_means_five_files_after_init :
  succeeded (generate_all_visualizations
               (final (init counter_seed counter_gauss (fresh 0%nat ∅ ∅)))) = true /\
  exists a,
    files (final (generate_all_visualizations
                    (final (init counter_seed counter_gauss (fresh 0%nat ∅ ∅)))))
    !! "visualizations/interactive_dashboard.html" = Some a.
Proof.
  assert (H : succeeded (generate_all_visualizations
                           (final (init counter_seed counter_gauss
                                     (fresh 0%nat ∅ ∅)))) = true)
    by (vm_compute; reflexivity).
  split; [exact H|].
  destruct (success_means_five_files _ H)
    as (a1 & a2 & a3 & a4 & a5 & _ & _ & _ & _ & _ & Hf & _).
  exists a5. rewrite Hf. apply lookup_insert_eq.
Defined.

Lemma stops_at_first_failure_without_tables :
  succeeded (generate_all_visualizations (fresh 0%nat ∅ ∅)) = false /\
  exists k gk e,
    nth_error generators k = Some gk /\
    generator_result gk (visualizer (fresh 0%nat ∅ ∅)) (dirs (fresh 0%nat ∅ ∅))
    = inl e.
Proof.
  split; [reflexivity|].
  destruct (stops_at_first_failure (fresh 0%nat ∅ ∅) eq_refl)
    as (k & gk & e & H1 & H2 & _).
  exists k, gk, e. split; assumption.
Defined.

Lemma run_blocked_by_file_named_visualizations :
  ("visualizations" ∈ dom ({["visualizations" := Html []]} : gmap string artifact)) /\
  ("visualizations" ∉ (∅ : gset string)) /\
  succeeded (main counter_seed counter_gauss []
               (fresh 0%nat ∅ {["visualizations" := Html []]})) = false.
Proof.
  assert (H1 : "visualizations"
               ∈ dom ({["visualizations" := Html []]} : gmap string artifact)).
  { apply elem_of_dom. exists (Html []). apply lookup_singleton_eq. }
  assert (H2 : "visualizations" ∉ (∅ : gset string)) by apply not_elem_of_empty.
  split; [exact H1|]. split; [exact H2|].
  destruct (run_blocked_by_file counter_seed counter_gauss [] 0%nat ∅
              {["visualizations" := Html []]} H1 H2) as (s' & head & E & _).
  rewrite E. reflexivity.
Defined.


Lemma normalization_keeps_order_of_usa_and_germany :
  (exists x y, In x (map of_int [1250; 890; 720; 650; 580; 320; 420]) /\
               In y (map of_int [1250; 890; 720; 650; 580; 320; 420]) /\
               ~ (x == y)%Q) /\
  exists p q,
    nth_error (normalize_column (map of_int [1250; 890; 720; 650; 580; 320; 420])) 0
    = Some (Finite p) /\
    nth_error (normalize_column (map of_int [1250; 890; 720; 650; 580; 320; 420])) 1
    = Some (Finite q) /\
    ((of_int 1250 <= of_int 890)%Q <-> (p <= q)%Q).
Proof.
  assert (H : exists x y,
             In x (map of_int [1250; 890; 720; 650; 580; 320; 420]) /\
             In y (map of_int [1250; 890; 720; 650; 580; 320; 420]) /\
             ~ (x == y)%Q).
  { exists (of_int 1250), (of_int 890).
    split; [left; reflexivity|]. split; [right; left; reflexivity|].
    intros C. discriminate C. }
  split; [exact H|].
  destruct (normalization_keeps_order
              (map of_int [1250; 890; 720; 650; 580; 320; 420]) 0 1
              (of_int 1250) (of_int 890) H eq_refl eq_refl)
    as (p & q & H1 & H2 & H3 & _).
  exists p, q. repeat split; try assumption; apply H3.
Defined.

Lemma larger_value_smaller_rank_with_a_tie :
  nth_error [5; 7; 5; 3]%Q 0 = Some 5%Q /\
  nth_error [5; 7; 5; 3]%Q 1 = Some 7%Q /\
  exists ru rv,
    nth_error (rank_descending [5; 7; 5; 3]%Q) 0 = Some ru /\
    nth_error (rank_descending [5; 7; 5; 3]%Q) 1 = Some rv /\
    ((5 < 7)%Q -> (rv < ru)%Q).
Proof.
  split; [reflexivity|]. split; [reflexivity|].
  destruct (larger_value_smaller_rank [5; 7; 5; 3]%Q 0 1 5%Q 7%Q eq_refl eq_refl)
    as (ru & rv & H1 & H2 & _ & H3).
  exists ru, rv. repeat split; assumption.
Defined.

Lemma zero_rentals_in_idle_months :
  MonthlyTrend.len idle_months = 24%nat /\
  length (MonthlyTrend.rentals idle_months) = 24%nat /\
  nth_error (MonthlyTrend.revenue idle_months) 3 = Some 5600 /\
  nth_error (MonthlyTrend.rentals idle_months) 3 = Some 0 /\
  nth_error (revenue_per_rental idle_months) 3 = Some PosInf.
Proof.
  split; [reflexivity|]. split; [reflexivity|].
  split; [reflexivity|]. split; [reflexivity|].
  apply (zero_rentals_do_not_raise idle_months 3 5600); reflexivity.
Defined.

Lemma trend_recovers_line_over_months :
  ~ (fit_denominator (range 24) == 0)%Q /\
  exists a' b',
    polyfit1 (range 24) (poly1d 2 3 (range 24)) = Fit a' b' /\
    (a' == 2)%Q /\ (b' == 3)%Q.
Proof.
  assert (H : ~ (fit_denominator (range 24) == 0)%Q).
  { intros C. unfold Qeq in C. vm_compute in C. discriminate C. }
  split; [exact H|].
  exact (trend_recovers_line (range 24) 2 3 H).
Defined.

Lemma empty_table_stops_generator_without_rows :
  visualizer (set_visualizer no_rows (fresh 0%nat ∅ ∅)) = Some no_rows /\
  succeeded (run_generator Genre (set_visualizer no_rows (fresh 0%nat ∅ ∅))) = false /\
  succeeded (run_generator Temporal (set_visualizer no_rows (fresh 0%nat ∅ ∅)))
  = false.
Proof.
  split; [reflexivity|].
  destruct (empty_table_stops_generator
              (set_visualizer no_rows (fresh 0%nat ∅ ∅)) no_rows eq_refl)
    as (Hg & Ht).
  split; [apply Hg; reflexivity|apply Ht; reflexivity].
Defined.

Lemma dashboard_returns_what_it_wrote_after_init :
  exists fig s',
    create_interactive_dashboard
      (final (init counter_seed counter_gauss (fresh 0%nat ∅ ∅))) = Ok fig s' /\
    files s' !! "visualizations/interactive_dashboard.html" = Some (Html fig).
Proof.
  destruct (create_interactive_dashboard
              (final (init counter_seed counter_gauss (fresh 0%nat ∅ ∅))))
    as [fig s'|e s'] eqn:E.
  - exists fig, s'. split; [reflexivity|].
    destruct (dashboard_returns_what_it_wrote _ _ _ E) as (Hf & _).
    rewrite Hf. apply lookup_insert_eq.
  - exfalso. vm_compute in E. discriminate E.
Defined.
